(** * ReqIF stage-1 parser: the structural assembly of [reqif/parser.py]

    A shallow embedding of [ReqIFStage1Parser.parse_reqif] and
    [ReqIFStage1Parser.strip_namespace_from_xml], and the properties the
    specification states about them.

    Scope of the model.  An XML tree is a tree of elements: comments and
    processing instructions are not represented.  On such a node
    [etree.QName] raises [ValueError] on line 188, before any section is
    looked at; the statements are about the trees the normalisation
    accepts.  The leaf parsers
    ([DataTypeParser], [SpecObjectTypeParser], [SpecObjectParser],
    [SpecRelationParser], [ReqIFSpecificationParser]) are external to
    [parser.py]; they are taken as a parameter, [LeafParsers]. *)

From stdpp Require Import base option list strings gmap.

Local Open Scope string_scope.
Local Open Scope list_scope.

(** ** The part of [lxml.etree] the parser relies on *)

Module Lxml.

(** The name of an element as lxml holds it: the prefix it was written
    with, the namespace URI it resolves to, and the local name.
    [namespace = None] is a name in no namespace. *)
Record QName : Type := mkQName {
  prefix : option string;
  namespace : option string;
  localname : string
}.

(** An attribute name.  A namespaced attribute is always written with a
    prefix: the default namespace does not apply to attributes. *)
Record AttrName : Type := mkAttrName {
  attr_ns : option (string * string);
  attr_name : string
}.

(** An element: its name, the namespace declarations written on it
    (prefix, or [None] for [xmlns=], to URI), its attributes, its text and
    its child elements in document order. *)
Unset Elimination Schemes.
Inductive Element : Type :=
  Elem (tag : QName) (nsdef : gmap (option string) string)
       (attrib : list (AttrName * string)) (text : option string)
       (children : list Element).
Set Elimination Schemes.

Definition tag (e : Element) : QName := let 'Elem q _ _ _ _ := e in q.
Definition nsdef (e : Element) : gmap (option string) string :=
  let 'Elem _ ns _ _ _ := e in ns.
Definition attrib (e : Element) : list (AttrName * string) :=
  let 'Elem _ _ a _ _ := e in a.
Definition text (e : Element) : option string := let 'Elem _ _ _ t _ := e in t.
Definition children (e : Element) : list Element :=
  let 'Elem _ _ _ _ cs := e in cs.

(** [root.nsmap]: on the root element, the declarations written on it. *)
Definition nsmap (root : Element) : gmap (option string) string := nsdef root.

(** [elem.tag] as Python sees it: the local name, in Clark notation
    [{uri}local] when the element is in a namespace. *)
Definition tag_text (q : QName) : string :=
  match namespace q with
  | Some uri => "{" +:+ uri +:+ "}" +:+ localname q
  | None => localname q
  end.

(** [len(elem)]. *)
Definition len (e : Element) : nat := length (children e).

(** [elem.find(name)] for a plain tag: the first child with that tag, or
    [None]. *)
Definition find (name : string) (e : Element) : option Element :=
  List.find (λ c, bool_decide (tag_text (tag c) = name)) (children e).

(** [elem.get(key)] for an attribute in no namespace. *)
Definition get (key : string) (e : Element) : option string :=
  snd <$> List.find
    (λ a, bool_decide (attr_ns a.1 = None ∧ attr_name a.1 = key)) (attrib e).

(** Whether a name refers to the declaration [p ↦ uri]. *)
Definition qname_uses (p : option string) (uri : string) (q : QName) : bool :=
  bool_decide (namespace q = Some uri ∧ prefix q = p).

Definition attr_uses (p : option string) (uri : string)
    (a : AttrName * string) : bool :=
  match attr_ns a.1 with
  | Some (p', uri') => bool_decide (p = Some p' ∧ uri = uri')
  | None => false
  end.

(** Whether an element or attribute of the subtree uses the declaration. *)
Fixpoint uses (p : option string) (uri : string) (e : Element) : bool :=
  let 'Elem q _ attrs _ cs := e in
  qname_uses p uri q || existsb (attr_uses p uri) attrs
  || existsb (uses p uri) cs.

(** [etree.cleanup_namespaces(tree)]: every declaration that no element or
    attribute below it uses is removed.  A use is counted by prefix and
    URI: a declaration is also kept when the only uses are below a
    descendant that declares the same prefix and URI again, where lxml
    removes it.  What the model keeps includes what lxml keeps. *)
Fixpoint cleanup_namespaces (e : Element) : Element :=
  let 'Elem q ns attrs t cs := e in
  Elem q (filter (λ d, uses d.1 d.2 e = true) ns) attrs t
       (map cleanup_namespaces cs).

End Lxml.

Import Lxml.

(** ** Python values the parser produces *)

(** The one argument value an exception of [parse_reqif] is built with. *)
Inductive pyarg : Type := PyNone.

(** The exceptions [parse_reqif] can end with.  [E] is whatever a leaf
    parser raises; it propagates unchanged. *)
Inductive exn (E : Type) : Type :=
| KeyError (key : option string)
| NotImplementedError (args : list pyarg)
| AssertionError
| UnboundLocalError (name : string)
| LeafError (e : E).

Arguments KeyError {E} key.
Arguments NotImplementedError {E} args.
Arguments AssertionError {E}.
Arguments UnboundLocalError {E} name.
Arguments LeafError {E} e.

(** Exceptions as the left summand; [inr] is normal completion. *)
#[export] Instance result_ret {E : Type} : MRet (sum E) := λ A x, inr x.
#[export] Instance result_bind {E : Type} : MBind (sum E) := λ A B f m,
  match m with
  | inl e => inl e
  | inr x => f x
  end.

Definition raise {E A : Type} (e : E) : E + A := inl e.

(** [d[key]] on the namespace map, a plain [dict]. *)
Definition nsmap_getitem {E : Type} (d : gmap (option string) string)
    (key : option string) : exn E + string :=
  match d !! key with
  | Some v => inr v
  | None => raise (KeyError key)
  end.

(** A [dict] with string keys, or a [collections.defaultdict] when
    [default_factory] is given. *)
Record pydict (V : Type) : Type := PyDict {
  default_factory : option V;
  items : gmap string V
}.

Arguments PyDict {V} default_factory items.
Arguments default_factory {V} _.
Arguments items {V} _.

(** [d[key]]: a missing key raises [KeyError], or with a default factory
    is first inserted with the default value. *)
Definition getitem {E V : Type} (key : string) (d : pydict V)
    : exn E + (V * pydict V) :=
  match items d !! key with
  | Some v => inr (v, d)
  | None =>
      match default_factory d with
      | Some v0 => inr (v0, PyDict (default_factory d) (<[key := v0]> (items d)))
      | None => raise (KeyError (Some key))
      end
  end.

(** [d[key] = v]. *)
Definition setitem {V : Type} (key : string) (v : V) (d : pydict V) : pydict V :=
  PyDict (default_factory d) (<[key := v]> (items d)).

(** [for x in xs: body], threading the loop's variables [s]; an exception
    in the body ends the loop. *)
Fixpoint for_in {E X S : Type} (xs : list X) (body : X → S → E + S) (s : S) : E + S :=
  match xs with
  | [] => inr s
  | x :: xs' => s' ← body x s; for_in xs' body s'
  end.

(** ** The leaf parsers and the bundle *)

(** The leaf parsers of [reqif/parsers/], which [parser.py] imports: the
    objects they build, the fields of those objects [parse_reqif] reads,
    and each parser's [parse], which returns an object or raises. *)
Record LeafParsers : Type := {
  DataType : Type;
  SpecObjectType : Type;
  SpecObject : Type;
  SpecRelation : Type;
  ReqIFSpecification : Type;
  LeafException : Type;
  data_type_identifier : DataType → string;
  spec_object_identifier : SpecObject → string;
  source : SpecRelation → string;
  target : SpecRelation → string;
  DataTypeParser_parse : Element → LeafException + DataType;
  SpecObjectTypeParser_parse : Element → LeafException + SpecObjectType;
  SpecObjectParser_parse : Element → LeafException + SpecObject;
  SpecRelationParser_parse : Element → LeafException + SpecRelation;
  ReqIFSpecificationParser_parse :
    Element → LeafException + ReqIFSpecification
}.

(** A leaf parser's call inside [parse_reqif]: what it raises propagates. *)
Definition call {E A : Type} (r : E + A) : exn E + A :=
  match r with
  | inl e => inl (LeafError e)
  | inr a => inr a
  end.

Section Bundle.
Context (L : LeafParsers).

(** [ReqIFReqIFContent(spec_objects=...)]. *)
Record ReqIFReqIFContent : Type := mkReqIFReqIFContent {
  spec_objects : list (SpecObject L)
}.

(** [ReqIFCoreContent(req_if_content)]. *)
Record ReqIFCoreContent : Type := mkReqIFCoreContent {
  req_if_content : ReqIFReqIFContent
}.

(** [ReqIFBundle], with the fields its constructor is called with. *)
Record ReqIFBundle : Type := mkReqIFBundle {
  bundle_namespace : option string;
  configuration : option string;
  core_content : ReqIFCoreContent;
  data_types : list (DataType L);
  spec_object_types : list (SpecObjectType L);
  spec_objects_lookup : gmap string (SpecObject L);
  spec_relations : list (SpecRelation L);
  spec_relations_parent_lookup : pydict (list string);
  specifications : list (ReqIFSpecification L)
}.

(** The ordered spec objects of a bundle:
    [bundle.core_content.req_if_content.spec_objects]. *)
Definition bundle_spec_objects (b : ReqIFBundle) : list (SpecObject L) :=
  spec_objects (req_if_content (core_content b)).

(** Modelled from the spec: [ReqIFBundle.create_empty] is defined in
    [reqif/reqif_bundle.py], which is not part of the sources at hand.
    Section 4.5: "All sequence fields are empty, all mapping fields are
    empty, namespace/configurationNamespace are still populated from the
    root element if present." *)
Definition create_empty (namespace configuration : option string)
    : ReqIFBundle :=
  {| bundle_namespace := namespace;
     configuration := configuration;
     core_content := mkReqIFCoreContent (mkReqIFReqIFContent []);
     data_types := [];
     spec_object_types := [];
     spec_objects_lookup := ∅;
     spec_relations := [];
     spec_relations_parent_lookup := PyDict None ∅;
     specifications := [] |}.

End Bundle.

Arguments spec_objects {L} _.
Arguments req_if_content {L} _.
Arguments bundle_namespace {L} _.
Arguments configuration {L} _.
Arguments core_content {L} _.
Arguments data_types {L} _.
Arguments spec_object_types {L} _.
Arguments spec_objects_lookup {L} _.
Arguments spec_relations {L} _.
Arguments spec_relations_parent_lookup {L} _.
Arguments specifications {L} _.
Arguments bundle_spec_objects {L} b.

(** ** [ReqIFStage1Parser] *)

Module ReqIFStage1Parser.

(** The loop of [strip_namespace_from_xml]: every element's tag becomes
    [etree.QName(elem).localname], a name in no namespace. *)
Fixpoint strip_tags (e : Element) : Element :=
  let 'Elem q ns attrs t cs := e in
  Elem (mkQName None None (localname q)) ns attrs t (map strip_tags cs).

(** [strip_namespace_from_xml(root_xml)].  The tree is changed in place
    and returned: the result is the tree the caller holds from then on.
    On a tree of elements the loop raises nothing. *)
Definition strip_namespace_from_xml (root_xml : Element) : Element :=
  cleanup_namespaces (strip_tags root_xml).

Section Parse.
Context (L : LeafParsers).

Local Abbreviation E := (exn (LeafException L)).

(** Lines 101-106: the loop over the children of [DATATYPES]; its
    variables are [data_types] and [data_types_lookup]. *)
Definition data_types_body (xml_data_type : Element)
    (s : list (DataType L) * gmap string (DataType L))
    : E + (list (DataType L) * gmap string (DataType L)) :=
  let '(data_types, data_types_lookup) := s in
  data_type ← call (DataTypeParser_parse L xml_data_type);
  mret (data_types ++ [data_type],
        <[data_type_identifier L data_type := data_type]> data_types_lookup).

(** Lines 138-142: the loop over the children of [SPEC-TYPES].  Its
    variables are the local [spec_type], unbound ([None]) until the first
    assignment, and [spec_object_types].  The [append] is not under the
    [if]: it runs for every child. *)
Definition spec_object_types_body (xml_spec_object_type_xml : Element)
    (s : option (SpecObjectType L) * list (SpecObjectType L))
    : E + (option (SpecObjectType L) * list (SpecObjectType L)) :=
  let '(spec_type, spec_object_types) := s in
  spec_type ←
    (if bool_decide (tag_text (tag xml_spec_object_type_xml) = "SPEC-OBJECT-TYPE")
     then v ← call (SpecObjectTypeParser_parse L xml_spec_object_type_xml);
          mret (Some v)
     else mret spec_type);
  match spec_type with
  | Some v => mret (Some v, spec_object_types ++ [v])
  | None => raise (UnboundLocalError "spec_type")
  end.

(** Lines 145-149: the loop over the children of [SPECIFICATIONS]. *)
Definition specifications_body (xml_specification : Element)
    (specifications : list (ReqIFSpecification L))
    : E + list (ReqIFSpecification L) :=
  specification ← call (ReqIFSpecificationParser_parse L xml_specification);
  mret (specifications ++ [specification]).

(** Lines 151-158: the loop over the relations; its variables are
    [spec_relations] and the [defaultdict(list)]
    [spec_relations_parent_lookup]. *)
Definition spec_relations_body (xml_spec_relation : Element)
    (s : list (SpecRelation L) * pydict (list string))
    : E + (list (SpecRelation L) * pydict (list string)) :=
  let '(spec_relations, spec_relations_parent_lookup) := s in
  spec_relation ← call (SpecRelationParser_parse L xml_spec_relation);
  '(targets, lookup) ←
    getitem (source L spec_relation) spec_relations_parent_lookup;
  mret (spec_relations ++ [spec_relation],
        setitem (source L spec_relation)
                (targets ++ [target L spec_relation]) lookup).

(** Lines 160-165: the loop over the children of [SPEC-OBJECTS]. *)
Definition spec_objects_body (xml_spec_object : Element)
    (s : list (SpecObject L) * gmap string (SpecObject L))
    : E + (list (SpecObject L) * gmap string (SpecObject L)) :=
  let '(spec_objects, spec_objects_lookup) := s in
  spec_object ← call (SpecObjectParser_parse L xml_spec_object);
  mret (spec_objects ++ [spec_object],
        <[spec_object_identifier L spec_object := spec_object]>
          spec_objects_lookup).

(** Lines 62-182 of [parse_reqif]: what follows the namespace capture and
    the normalisation, on the normalised root [xml_reqif].  ([xml_reqif is
    None] on line 64 cannot hold: line 53 has already read the root's
    [nsmap].)  An [assert] that fails raises [AssertionError]. *)
Definition assemble (namespace configuration : option string)
    (xml_reqif : Element) : E + ReqIFBundle L :=
  if bool_decide (tag_text (tag xml_reqif) ≠ "REQ-IF")
  then raise (NotImplementedError [])
  else if bool_decide (len xml_reqif = 0)
  then mret (create_empty L namespace configuration)
  else
  match find "THE-HEADER" xml_reqif with
  | None => mret (create_empty L namespace configuration)
  | Some xml_the_header =>
  match find "CORE-CONTENT" xml_reqif with
  | None => raise (NotImplementedError [PyNone])
  | Some xml_core_content =>
  match find "REQ-IF-CONTENT" xml_core_content with
  | None => raise AssertionError
  | Some xml_req_if_content =>
  match find "DATATYPES" xml_req_if_content with
  | None => raise AssertionError
  | Some xml_data_types =>
  '(data_types, data_types_lookup) ←
    for_in (children xml_data_types) data_types_body ([], ∅);
  let xml_spec_types := find "SPEC-TYPES" xml_req_if_content in
  match find "SPEC-OBJECTS" xml_req_if_content with
  | None => raise AssertionError
  | Some xml_spec_objects =>
  let xml_spec_relations :=
    match find "SPEC-RELATIONS" xml_req_if_content with
    | Some xml_spec_relations => children xml_spec_relations
    | None => []
    end in
  match find "SPECIFICATIONS" xml_req_if_content with
  | None => raise AssertionError
  | Some xml_specifications =>
  match xml_spec_types with
  | None => raise (NotImplementedError [])
  | Some xml_spec_types =>
  '(spec_type, spec_object_types) ←
    for_in (children xml_spec_types) spec_object_types_body (None, []);
  specifications ←
    for_in (children xml_specifications) specifications_body [];
  '(spec_relations, spec_relations_parent_lookup) ←
    for_in xml_spec_relations spec_relations_body ([], PyDict (Some []) ∅);
  '(spec_objects, spec_objects_lookup) ←
    for_in (children xml_spec_objects) spec_objects_body ([], ∅);
  let reqif_reqif_content := mkReqIFReqIFContent L spec_objects in
  let core_content_or_none := mkReqIFCoreContent L reqif_reqif_content in
  mret {| bundle_namespace := namespace;
          configuration := configuration;
          core_content := core_content_or_none;
          data_types := data_types;
          spec_object_types := spec_object_types;
          spec_objects_lookup := spec_objects_lookup;
          spec_relations := spec_relations;
          spec_relations_parent_lookup := spec_relations_parent_lookup;
          specifications := specifications |}
  end end end end end end end.

(** [parse_reqif(xml_reqif_root)].  The tree is a mutable object: the
    result is paired with the tree as the call leaves it.  Lines 53-55
    read the root's [nsmap] with [d[key]]; lines 57-60 normalise the tree
    in place. *)
Definition parse_reqif (xml_reqif_root : Element)
    : (E + ReqIFBundle L) * Element :=
  let namespace_info := nsmap xml_reqif_root in
  match nsmap_getitem namespace_info None with
  | inl e => (inl e, xml_reqif_root)
  | inr namespace =>
  match nsmap_getitem namespace_info (Some "configuration") with
  | inl e => (inl e, xml_reqif_root)
  | inr configuration =>
  let xml_reqif_root_nons := strip_namespace_from_xml xml_reqif_root in
  let xml_reqif := xml_reqif_root_nons in
  (assemble (Some namespace) (Some configuration) xml_reqif,
   xml_reqif_root_nons)
  end end.

End Parse.

End ReqIFStage1Parser.

Import ReqIFStage1Parser.

(** ** Example leaf parsers and documents *)

(** A small instance of [LeafParsers], used to run [parse_reqif] on
    concrete documents: every object keeps its [IDENTIFIER] and
    [LONG-NAME] attributes, a relation also the references under [SOURCE]
    and [TARGET]; a missing [IDENTIFIER] or reference raises. *)
Module Sample.

Record Named : Type := mkNamed {
  identifier : string;
  long_name : option string
}.

Record Relation : Type := mkRelation {
  relation_identifier : string;
  relation_source : string;
  relation_target : string
}.

Definition parse_named (e : Element) : string + Named :=
  match get "IDENTIFIER" e with
  | Some i => inr (mkNamed i (get "LONG-NAME" e))
  | None => inl "IDENTIFIER is missing"
  end.

Definition spec_object_ref (name : string) (e : Element) : option string :=
  match find name e with
  | Some r =>
      match find "SPEC-OBJECT-REF" r with
      | Some o => text o
      | None => None
      end
  | None => None
  end.

Definition parse_relation (e : Element) : string + Relation :=
  match get "IDENTIFIER" e, spec_object_ref "SOURCE" e,
        spec_object_ref "TARGET" e with
  | Some i, Some s, Some t => inr (mkRelation i s t)
  | _, _, _ => inl "SPEC-RELATION is incomplete"
  end.

Definition parsers : LeafParsers :=
  {| DataType := Named;
     SpecObjectType := Named;
     SpecObject := Named;
     SpecRelation := Relation;
     ReqIFSpecification := Named;
     LeafException := string;
     data_type_identifier := identifier;
     spec_object_identifier := identifier;
     source := relation_source;
     target := relation_target;
     DataTypeParser_parse := parse_named;
     SpecObjectTypeParser_parse := parse_named;
     SpecObjectParser_parse := parse_named;
     SpecRelationParser_parse := parse_relation;
     ReqIFSpecificationParser_parse := parse_named |}.

Definition reqif_xsd : string :=
  "http://www.omg.org/spec/ReqIF/20110401/reqif.xsd".
Definition toolextensions : string :=
  "http://eclipse.org/rmf/pror/toolextensions/1.0".

(** An element written without prefix under [xmlns=reqif_xsd]. *)
Definition el (name : string) (attrs : list (string * string))
    (cs : list Element) : Element :=
  Elem (mkQName None (Some reqif_xsd) name) ∅
       ((λ a, (mkAttrName None a.1, a.2)) <$> attrs) None cs.

Definition ref (name target : string) : Element :=
  el name [] [Elem (mkQName None (Some reqif_xsd) "SPEC-OBJECT-REF") ∅ []
                   (Some target) []].

Definition relation (i s t : string) : Element :=
  el "SPEC-RELATION" [("IDENTIFIER", i)] [ref "SOURCE" s; ref "TARGET" t].

(** A root element [name] declaring both namespaces. *)
Definition root (name : string) (cs : list Element) : Element :=
  Elem (mkQName None (Some reqif_xsd) name)
       {[ None := reqif_xsd; Some "configuration" := toolextensions ]}
       [] None cs.

(** A root element [name] with no namespace declaration at all. *)
Definition bare_root (name : string) (cs : list Element) : Element :=
  Elem (mkQName None None name) ∅ [] None cs.

Definition header : Element := el "THE-HEADER" [] [].

Definition content (sections : list Element) : Element :=
  el "CORE-CONTENT" [] [el "REQ-IF-CONTENT" [] sections].

Definition datatypes : Element :=
  el "DATATYPES" [] [el "DATATYPE-DEFINITION-STRING" [("IDENTIFIER", "DT-1")] []].
Definition spec_types (cs : list Element) : Element := el "SPEC-TYPES" [] cs.
Definition spec_object_type (i : string) : Element :=
  el "SPEC-OBJECT-TYPE" [("IDENTIFIER", i)] [].
Definition spec_relation_type (i : string) : Element :=
  el "SPEC-RELATION-TYPE" [("IDENTIFIER", i)] [].
Definition spec_object (i n : string) : Element :=
  el "SPEC-OBJECT" [("IDENTIFIER", i); ("LONG-NAME", n)] [].
Definition spec_objects (cs : list Element) : Element :=
  el "SPEC-OBJECTS" [] cs.
Definition spec_relations (cs : list Element) : Element :=
  el "SPEC-RELATIONS" [] cs.
Definition specifications : Element :=
  el "SPECIFICATIONS" [] [el "SPECIFICATION" [("IDENTIFIER", "SPEC-1")] []].

(** A document with a header and the given sections. *)
Definition document_of (sections : list Element) : Element :=
  root "REQ-IF" [header; content sections].

Definition two_spec_objects : Element :=
  spec_objects [spec_object "SO-1" "first"; spec_object "SO-2" "second"].
Definition one_relation : Element :=
  spec_relations [relation "SR-1" "SO-1" "SO-2"].

(** The scenario of the specification: one data type, one spec-object
    type, two spec objects, one relation, one specification. *)
Definition document : Element :=
  document_of
    [datatypes; spec_types [spec_object_type "SOT-1"]; two_spec_objects;
     one_relation; specifications].

(** [SPEC-TYPES] holds a [SPEC-OBJECT-TYPE] and then an element of
    another tag. *)
Definition other_spec_type_last : Element :=
  document_of
    [datatypes;
     spec_types [spec_object_type "SOT-1"; spec_relation_type "SRT-1"];
     two_spec_objects; one_relation; specifications].

(** The same two children of [SPEC-TYPES], the other tag first. *)
Definition other_spec_type_first : Element :=
  document_of
    [datatypes;
     spec_types [spec_relation_type "SRT-1"; spec_object_type "SOT-1"];
     two_spec_objects; one_relation; specifications].

(** Documents with one section left out. *)
Definition without_datatypes : Element :=
  document_of
    [spec_types [spec_object_type "SOT-1"]; two_spec_objects; one_relation;
     specifications].
Definition without_spec_types : Element :=
  document_of [datatypes; two_spec_objects; one_relation; specifications].
Definition without_spec_objects : Element :=
  document_of
    [datatypes; spec_types [spec_object_type "SOT-1"]; one_relation;
     specifications].
Definition without_specifications : Element :=
  document_of
    [datatypes; spec_types [spec_object_type "SOT-1"]; two_spec_objects;
     one_relation].

(** Two spec objects with the same identifier. *)
Definition duplicate_identifier : Element :=
  document_of
    [datatypes; spec_types [spec_object_type "SOT-1"];
     spec_objects [spec_object "SO-1" "first"; spec_object "SO-1" "second"];
     one_relation; specifications].

(** Two relations from [SO-1] around one from [SO-2]. *)
Definition three_relations : Element :=
  document_of
    [datatypes; spec_types [spec_object_type "SOT-1"]; two_spec_objects;
     spec_relations
       [relation "SR-1" "SO-1" "SO-2"; relation "SR-2" "SO-2" "SO-1";
        relation "SR-3" "SO-1" "SO-3"];
     specifications].

(** The root declares [xmlns=] only. *)
Definition default_namespace_only : Element :=
  Elem (mkQName None (Some reqif_xsd) "REQ-IF") {[ None := reqif_xsd ]} []
       None [].

End Sample.

(** ** Vocabulary of the statements *)

(** [objs] are the objects a leaf parser builds from the elements [xs],
    one per element and in the same order; every call returns. *)
Definition decoded {E A : Type} (parse : Element → E + A)
    (xs : list Element) (objs : list A) : Prop :=
  Forall2 (λ x o, parse x = inr o) xs objs.

(** The [REQ-IF-CONTENT] element of a normalised root, where
    [parse_reqif] looks for it. *)
Definition located_content (xml_reqif : Element) : option Element :=
  match find "CORE-CONTENT" xml_reqif with
  | Some xml_core_content => find "REQ-IF-CONTENT" xml_core_content
  | None => None
  end.

(** The section [name] of a normalised root: the child of that name of
    its [REQ-IF-CONTENT]. *)
Definition section (name : string) (xml_reqif : Element) : option Element :=
  match located_content xml_reqif with
  | Some xml_req_if_content => find name xml_req_if_content
  | None => None
  end.

(** The elements of the section [name], none when it is absent. *)
Definition section_children (name : string) (xml_reqif : Element)
    : list Element :=
  match section name xml_reqif with
  | Some s => children s
  | None => []
  end.

(** Whether an element of the document as loaded has a direct child
    whose local name is [name]. *)
Definition has_child (name : string) (e : Element) : Prop :=
  Exists (λ c, localname (tag c) = name) (children e).

(** The identifier index a loop builds from the objects [objs], starting
    from [m]: a later object replaces an earlier one of the same
    identifier. *)
Definition index_by {A : Type} (key : A → string) (m : gmap string A)
    (objs : list A) : gmap string A :=
  foldl (λ m o, <[key o := o]> m) m objs.

(** The targets of the relations whose source is [s], in the order of the
    relations. *)
Definition targets_of (L : LeafParsers) (s : string)
    (rels : list (SpecRelation L)) : list string :=
  target L <$> filter (λ r, source L r = s) rels.

(** What one relation does to the items of the [defaultdict]. *)
Definition add_target (L : LeafParsers) (m : gmap string (list string))
    (r : SpecRelation L) : gmap string (list string) :=
  <[source L r := default [] (m !! source L r) ++ [target L r]]> m.

(** The bundle [parse_reqif] builds on line 172 from the namespaces and
    the decoded objects. *)
Definition assembled (L : LeafParsers) (ns cfg : option string)
    (dtl : list (DataType L)) (sotl : list (SpecObjectType L))
    (ol : list (SpecObject L)) (rl : list (SpecRelation L))
    (spl : list (ReqIFSpecification L)) : ReqIFBundle L :=
  {| bundle_namespace := ns;
     configuration := cfg;
     core_content := mkReqIFCoreContent L (mkReqIFReqIFContent L ol);
     data_types := dtl;
     spec_object_types := sotl;
     spec_objects_lookup := index_by (spec_object_identifier L) ∅ ol;
     spec_relations := rl;
     spec_relations_parent_lookup :=
       PyDict (Some []) (foldl (add_target L) ∅ rl);
     specifications := spl |}.

(** The exceptions [parse_reqif] can end with before it walks
    [SPEC-TYPES]: its own, none of which carries the name of a section,
    or one raised by the data-type parser. *)
Definition raised_before_walk {E : Type} (e : exn E) : Prop :=
  match e with
  | KeyError k => k = None ∨ k = Some "configuration"
  | NotImplementedError args => args = [] ∨ args = [PyNone]
  | AssertionError => True
  | UnboundLocalError _ => False
  | LeafError _ => True
  end.

(** The bundle expected for an example document made with
    [Sample.document_of]: its data type is [DT-1], its specification
    [SPEC-1]. *)
Definition sample_bundle (sotl ol : list Sample.Named)
    (rl : list Sample.Relation) : ReqIFBundle Sample.parsers :=
  assembled Sample.parsers (Some Sample.reqif_xsd) (Some Sample.toolextensions)
    [Sample.mkNamed "DT-1" None] sotl ol rl [Sample.mkNamed "SPEC-1" None].

Definition sample_objects : list Sample.Named :=
  [Sample.mkNamed "SO-1" (Some "first"); Sample.mkNamed "SO-2" (Some "second")].

(** The bundles expected for [Sample.document] and
    [Sample.three_relations]. *)
Definition document_bundle : ReqIFBundle Sample.parsers :=
  sample_bundle [Sample.mkNamed "SOT-1" None] sample_objects
    [Sample.mkRelation "SR-1" "SO-1" "SO-2"].

Definition three_relations_bundle : ReqIFBundle Sample.parsers :=
  sample_bundle [Sample.mkNamed "SOT-1" None] sample_objects
    [Sample.mkRelation "SR-1" "SO-1" "SO-2";
     Sample.mkRelation "SR-2" "SO-2" "SO-1";
     Sample.mkRelation "SR-3" "SO-1" "SO-3"].

(** ** Vocabulary of the further properties *)

(** [root_xml.getiterator()]: the element and its descendants in
    document order. *)
Fixpoint getiterator (e : Element) : list Element :=
  let 'Elem _ _ _ _ cs := e in e :: flat_map getiterator cs.

(** What an element holds besides its namespace and its declarations. *)
Definition content (e : Element)
    : string * list (AttrName * string) * option string * nat :=
  (localname (tag e), attrib e, text e, length (children e)).

(** An attribute of the subtree of [e] is written with the prefix [p] in
    the namespace [uri]. *)
Definition attribute_in (p uri : string) (e : Element) : Prop :=
  ∃ d a, d ∈ getiterator e ∧ a ∈ attrib d ∧ attr_ns a.1 = Some (p, uri).

(** A document whose root carries [xsi:schemaLocation], as the files of
    requirements tools do. *)
Module Example.

Definition xsi : string := "http://www.w3.org/2001/XMLSchema-instance".

Definition with_schema_location : Element :=
  Elem (mkQName None (Some Sample.reqif_xsd) "REQ-IF")
       {[ None := Sample.reqif_xsd;
          Some "configuration" := Sample.toolextensions;
          Some "xsi" := xsi ]}
       [(mkAttrName (Some ("xsi", xsi)) "schemaLocation", "reqif.xsd")]
       None
       [Sample.header;
        Sample.content
          [Sample.datatypes; Sample.spec_types [];
           Sample.spec_objects []; Sample.specifications]].

End Example.

(** The number of targets the relation index holds, over all its
    sources. *)
Definition total_targets (m : gmap string (list string)) : nat :=
  sum_list_with (λ kv, length kv.2) (map_to_list m).

(** Documents on which a leaf parser raises. *)
Module Failing.

(** [DATATYPES] holds a data type without [IDENTIFIER] after a good one,
    and no other section follows. *)
Definition data_type : Element :=
  Sample.document_of
    [Sample.el "DATATYPES" []
       [Sample.el "DATATYPE-DEFINITION-STRING" [("IDENTIFIER", "DT-1")] [];
        Sample.el "DATATYPE-DEFINITION-STRING" [] []]].

(** A complete document whose second spec object has no [IDENTIFIER]. *)
Definition spec_object : Element :=
  Sample.document_of
    [Sample.datatypes; Sample.spec_types [Sample.spec_object_type "SOT-1"];
     Sample.spec_objects
       [Sample.spec_object "SO-1" "first"; Sample.el "SPEC-OBJECT" [] []];
     Sample.one_relation; Sample.specifications].

End Failing.

(** The bundles expected for [Sample.duplicate_identifier] and
    [Sample.other_spec_type_last]. *)
Definition duplicate_identifier_bundle : ReqIFBundle Sample.parsers :=
  sample_bundle [Sample.mkNamed "SOT-1" None]
    [Sample.mkNamed "SO-1" (Some "first"); Sample.mkNamed "SO-1" (Some "second")]
    [Sample.mkRelation "SR-1" "SO-1" "SO-2"].

Definition other_spec_type_last_bundle : ReqIFBundle Sample.parsers :=
  sample_bundle [Sample.mkNamed "SOT-1" None; Sample.mkNamed "SOT-1" None]
    sample_objects [Sample.mkRelation "SR-1" "SO-1" "SO-2"].

(** ** The normalised tree *)

Section Element_induction.
Context (P : Element → Prop).
Hypothesis IH : ∀ q ns attrs t cs, Forall P cs → P (Elem q ns attrs t cs).

Fixpoint Element_ind (e : Element) : P e :=
  let 'Elem q ns attrs t cs := e in
  IH q ns attrs t cs
    ((fix all (l : list Element) : Forall P l :=
        match l with
        | [] => List.Forall_nil P
        | c :: l' => List.Forall_cons P c l' (Element_ind c) (all l')
        end) cs).

End Element_induction.

Lemma uses_default_strip_tags uri e : uses None uri (strip_tags e) = false.
Proof.
  induction e as [q ns attrs t cs IHcs] using Element_ind. simpl.
  rewrite orb_false_iff. split.
  - clear. by induction attrs as [|[[[[a b]|] n] v] attrs IHa]; simpl.
  - induction IHcs as [|c cs Hc _ IHl]; simpl; [done|].
    by rewrite Hc, IHl.
Qed.

Lemma nsdef_cleanup e :
  nsdef (cleanup_namespaces e) = filter (λ d, uses d.1 d.2 e = true) (nsdef e).
Proof. by destruct e. Qed.

(** After the normalisation the root declares no default namespace: no
    element is in a namespace any more, and attributes never use it. *)
Lemma nsmap_strip_default t :
  nsmap (strip_namespace_from_xml t) !! (None : option string) = None.
Proof.
  unfold strip_namespace_from_xml, nsmap. rewrite nsdef_cleanup.
  apply map_lookup_filter_None. right. intros uri _. cbn [fst snd].
  by rewrite uses_default_strip_tags.
Qed.

Lemma tag_strip_tags e : tag (strip_tags e) = mkQName None None (localname (tag e)).
Proof. by destruct e. Qed.

Lemma tag_cleanup e : tag (cleanup_namespaces e) = tag e.
Proof. by destruct e. Qed.

Lemma tag_text_strip t :
  tag_text (tag (strip_namespace_from_xml t)) = localname (tag t).
Proof.
  unfold strip_namespace_from_xml. by rewrite tag_cleanup, tag_strip_tags.
Qed.

Lemma children_strip t :
  children (strip_namespace_from_xml t)
  = (λ c, cleanup_namespaces (strip_tags c)) <$> children t.
Proof.
  destruct t as [q ns attrs tx cs]. simpl. by rewrite map_map.
Qed.

Lemma find_strip name t :
  find name (strip_namespace_from_xml t)
  = (λ c, cleanup_namespaces (strip_tags c))
      <$> List.find (λ c, bool_decide (localname (tag c) = name)) (children t).
Proof.
  unfold find. rewrite children_strip.
  induction (children t) as [|c cs IH]; simpl; [done|].
  rewrite tag_cleanup, tag_strip_tags. unfold tag_text at 1. simpl.
  destruct (bool_decide (localname (tag c) = name)); [done|apply IH].
Qed.

Lemma find_strip_is_Some name t :
  is_Some (find name (strip_namespace_from_xml t)) ↔ has_child name t.
Proof.
  rewrite find_strip, fmap_is_Some. unfold has_child.
  induction (children t) as [|c cs IH]; simpl.
  - split; [by intros [? ?]|by inversion 1].
  - rewrite Exists_cons. case_bool_decide as Hc.
    + split; [by left|by eexists].
    + rewrite IH. tauto.
Qed.

Lemma find_strip_None name t :
  find name (strip_namespace_from_xml t) = None ↔ ¬ has_child name t.
Proof. by rewrite <- find_strip_is_Some, eq_None_not_Some. Qed.

(** ** The loops of [parse_reqif] *)

Section Loops.
Context (L : LeafParsers).

Local Abbreviation E := (exn (LeafException L)).

(** A loop whose body decodes the element and folds the object into the
    loop's variables, on elements satisfying [Q] and from a state
    satisfying [I]. *)
Section Decoding_loop.
Context {A S : Type} (parse : Element → LeafException L + A).
Context (step : S → A → S) (body : Element → S → E + S).
Context (Q : Element → Prop) (I : S → Prop).
Hypothesis body_step :
  ∀ x s, Q x → I s → body x s = (o ← call (parse x); mret (step s o)).
Hypothesis step_I : ∀ s o, I s → I (step s o).

Lemma for_in_decoded xs s objs :
  Forall Q xs → I s → decoded parse xs objs →
  for_in xs body s = inr (foldl step s objs).
Proof.
  intros HQ Hs Hd. revert s Hs HQ.
  induction Hd as [|x o xs objs Hx _ IH]; intros s Hs HQ; [done|].
  apply Forall_cons in HQ as [Hq HQ]. simpl.
  rewrite body_step, Hx by done. simpl. apply IH; auto.
Qed.

Lemma for_in_decoded_inv xs s s' :
  Forall Q xs → I s → for_in xs body s = inr s' →
  ∃ objs, decoded parse xs objs ∧ s' = foldl step s objs.
Proof.
  revert s. induction xs as [|x xs IH]; intros s HQ Hs Hrun.
  - exists []. split; [constructor|]. simpl in *. congruence.
  - apply Forall_cons in HQ as [Hq HQ]. simpl in Hrun.
    rewrite body_step in Hrun by done.
    destruct (parse x) as [e|o] eqn:Hx; simpl in Hrun; [done|].
    destruct (IH _ HQ (step_I _ o Hs) Hrun) as (objs & Hd & ->).
    exists (o :: objs). split; [by constructor|done].
Qed.

End Decoding_loop.

(** The loops that collect the objects and index them by identifier. *)
Lemma foldl_collect_index {A : Type} (key : A → string) objs acc m :
  foldl (λ (s : list A * gmap string A) o, (s.1 ++ [o], <[key o := o]> s.2))
        (acc, m) objs
  = (acc ++ objs, index_by key m objs).
Proof.
  revert acc m. induction objs as [|o objs IH]; intros acc m; simpl.
  - by rewrite app_nil_r.
  - rewrite IH. by rewrite <- app_assoc.
Qed.

Lemma for_in_data_types xs objs :
  decoded (DataTypeParser_parse L) xs objs →
  for_in xs (data_types_body L) ([], ∅)
  = inr (objs, index_by (data_type_identifier L) ∅ objs).
Proof.
  intros Hd.
  rewrite (for_in_decoded (DataTypeParser_parse L)
             (λ s o, (s.1 ++ [o], <[data_type_identifier L o := o]> s.2))
             (data_types_body L) (λ _, True) (λ _, True)) with (objs := objs);
    [by rewrite foldl_collect_index|by intros x [l m]|done| |done|done].
  by apply Forall_true.
Qed.

Lemma for_in_data_types_inv xs s :
  for_in xs (data_types_body L) ([], ∅) = inr s →
  decoded (DataTypeParser_parse L) xs s.1.
Proof.
  intros Hrun.
  apply (for_in_decoded_inv (DataTypeParser_parse L)
           (λ s o, (s.1 ++ [o], <[data_type_identifier L o := o]> s.2))
           (data_types_body L) (λ _, True) (λ _, True)) in Hrun
    as (objs & Hd & ->); [|by intros x [l m]|done| |done].
  - by rewrite foldl_collect_index.
  - by apply Forall_true.
Qed.


Lemma for_in_spec_objects_inv xs s :
  for_in xs (spec_objects_body L) ([], ∅) = inr s →
  decoded (SpecObjectParser_parse L) xs s.1
  ∧ s.2 = index_by (spec_object_identifier L) ∅ s.1.
Proof.
  intros Hrun.
  apply (for_in_decoded_inv (SpecObjectParser_parse L)
           (λ s o, (s.1 ++ [o], <[spec_object_identifier L o := o]> s.2))
           (spec_objects_body L) (λ _, True) (λ _, True)) in Hrun
    as (objs & Hd & ->); [|by intros x [l m]|done| |done].
  - by rewrite foldl_collect_index.
  - by apply Forall_true.
Qed.

(** The loop over [SPECIFICATIONS]. *)
Lemma foldl_collect {A : Type} (objs acc : list A) :
  foldl (λ s o, s ++ [o]) acc objs = acc ++ objs.
Proof.
  revert acc. induction objs as [|o objs IH]; intros acc; simpl.
  - by rewrite app_nil_r.
  - rewrite IH. by rewrite <- app_assoc.
Qed.


Lemma for_in_specifications_inv xs s :
  for_in xs (specifications_body L) [] = inr s →
  decoded (ReqIFSpecificationParser_parse L) xs s.
Proof.
  intros Hrun.
  apply (for_in_decoded_inv (ReqIFSpecificationParser_parse L)
           (λ s o, s ++ [o]) (specifications_body L)
           (λ _, True) (λ _, True)) in Hrun
    as (objs & Hd & ->); [|done|done| |done].
  - by rewrite foldl_collect.
  - by apply Forall_true.
Qed.

(** The loop over the relations: with the [defaultdict(list)] it starts
    from, [d[source]] never raises, and one round adds the target to the
    source's list. *)
Lemma spec_relations_body_step x (s : list (SpecRelation L) * pydict (list string)) :
  default_factory s.2 = Some [] →
  spec_relations_body L x s
  = (r ← call (SpecRelationParser_parse L x);
     mret (s.1 ++ [r], PyDict (Some []) (add_target L (items s.2) r))).
Proof.
  destruct s as [l [f m]]. simpl. intros ->.
  destruct (SpecRelationParser_parse L x) as [e|r]; simpl; [done|].
  unfold getitem, setitem, add_target. simpl.
  destruct (m !! source L r) as [ts|]; simpl; [done|].
  by rewrite insert_insert_eq.
Qed.

Lemma foldl_relations rels acc m :
  foldl (λ (s : list (SpecRelation L) * pydict (list string)) r,
           (s.1 ++ [r], PyDict (Some []) (add_target L (items s.2) r)))
        (acc, PyDict (Some []) m) rels
  = (acc ++ rels, PyDict (Some []) (foldl (add_target L) m rels)).
Proof.
  revert acc m. induction rels as [|r rels IH]; intros acc m; simpl.
  - by rewrite app_nil_r.
  - rewrite IH. by rewrite <- app_assoc.
Qed.


Lemma for_in_spec_relations_inv xs s :
  for_in xs (spec_relations_body L) ([], PyDict (Some []) ∅) = inr s →
  decoded (SpecRelationParser_parse L) xs s.1
  ∧ s.2 = PyDict (Some []) (foldl (add_target L) ∅ s.1).
Proof.
  intros Hrun.
  apply (for_in_decoded_inv (SpecRelationParser_parse L)
           (λ s r, (s.1 ++ [r], PyDict (Some []) (add_target L (items s.2) r)))
           (spec_relations_body L) (λ _, True)
           (λ s, default_factory s.2 = Some [])) in Hrun
    as (objs & Hd & ->);
    [|by intros; apply spec_relations_body_step|done| |done].
  - by rewrite foldl_relations.
  - by apply Forall_true.
Qed.

Lemma targets_of_snoc s rels r :
  targets_of L s (rels ++ [r])
  = targets_of L s rels ++ (if decide (source L r = s) then [target L r] else []).
Proof.
  unfold targets_of. rewrite filter_app, fmap_app. f_equal.
  rewrite filter_cons, filter_nil. by case_decide.
Qed.

(** The items of the relation index: the sources of the relations, each
    with the targets of its relations in the order of the relations. *)
Lemma relation_index_lookup rels s :
  foldl (add_target L) ∅ rels !! s
  = if decide (targets_of L s rels = []) then None
    else Some (targets_of L s rels).
Proof.
  induction rels as [|r rels IH] using rev_ind; [done|].
  rewrite foldl_snoc, targets_of_snoc. unfold add_target at 1.
  destruct (decide (source L r = s)) as [->|Hne].
  - rewrite lookup_insert_eq, IH.
    destruct (decide (targets_of L s rels = [])) as [->|Hts]; simpl.
    + done.
    + case_decide as Hnil; [|done].
      by apply app_eq_nil in Hnil as [_ ?].
  - rewrite lookup_insert_ne, IH by done. by rewrite app_nil_r.
Qed.

(** The walk over [SPEC-TYPES] when every child is a [SPEC-OBJECT-TYPE]:
    each child is decoded and appended once. *)
Lemma spec_object_types_body_step x
    (s : option (SpecObjectType L) * list (SpecObjectType L)) :
  tag_text (tag x) = "SPEC-OBJECT-TYPE" →
  spec_object_types_body L x s
  = (v ← call (SpecObjectTypeParser_parse L x); mret (Some v, s.2 ++ [v])).
Proof.
  intros Hx. destruct s as [st l]. unfold spec_object_types_body.
  rewrite bool_decide_eq_true_2 by done.
  by destruct (SpecObjectTypeParser_parse L x).
Qed.

Lemma foldl_spec_object_types objs st (acc : list (SpecObjectType L)) :
  (foldl (λ (s : option (SpecObjectType L) * list (SpecObjectType L)) v,
            (Some v, s.2 ++ [v])) (st, acc) objs).2
  = acc ++ objs.
Proof.
  revert st acc. induction objs as [|o objs IH]; intros st acc; simpl.
  - by rewrite app_nil_r.
  - rewrite IH. by rewrite <- app_assoc.
Qed.

Lemma for_in_spec_object_types xs objs :
  Forall (λ x, tag_text (tag x) = "SPEC-OBJECT-TYPE") xs →
  decoded (SpecObjectTypeParser_parse L) xs objs →
  ∃ st, for_in xs (spec_object_types_body L) (None, []) = inr (st, objs).
Proof.
  intros Htag Hd.
  rewrite (for_in_decoded (SpecObjectTypeParser_parse L)
             (λ s v, (Some v, s.2 ++ [v])) (spec_object_types_body L)
             (λ x, tag_text (tag x) = "SPEC-OBJECT-TYPE") (λ _, True))
    with (objs := objs);
    [|by intros; apply spec_object_types_body_step|done|done|done|done].
  eexists. rewrite (surjective_pairing (foldl _ _ _)).
  by rewrite foldl_spec_object_types.
Qed.

Lemma for_in_spec_object_types_inv xs s :
  Forall (λ x, tag_text (tag x) = "SPEC-OBJECT-TYPE") xs →
  for_in xs (spec_object_types_body L) (None, []) = inr s →
  decoded (SpecObjectTypeParser_parse L) xs s.2.
Proof.
  intros Htag Hrun.
  apply (for_in_decoded_inv (SpecObjectTypeParser_parse L)
           (λ s v, (Some v, s.2 ++ [v])) (spec_object_types_body L)
           (λ x, tag_text (tag x) = "SPEC-OBJECT-TYPE") (λ _, True)) in Hrun
    as (objs & Hd & ->);
    [|by intros; apply spec_object_types_body_step|done|done|done].
  by rewrite foldl_spec_object_types.
Qed.

End Loops.

(** ** The paths through [parse_reqif] *)

Section Paths.
Context (L : LeafParsers).

Local Abbreviation E := (exn (LeafException L)).

Lemma parse_reqif_no_default t :
  nsmap t !! (None : option string) = None →
  parse_reqif L t = (inl (KeyError None), t).
Proof. intros H. unfold parse_reqif, nsmap_getitem. by rewrite H. Qed.

Lemma parse_reqif_no_configuration t ns :
  nsmap t !! (None : option string) = Some ns →
  nsmap t !! Some "configuration" = None →
  parse_reqif L t = (inl (KeyError (Some "configuration")), t).
Proof. intros H1 H2. unfold parse_reqif, nsmap_getitem. by rewrite H1, H2. Qed.

Lemma parse_reqif_namespaces t ns cfg :
  nsmap t !! (None : option string) = Some ns →
  nsmap t !! Some "configuration" = Some cfg →
  parse_reqif L t
  = (assemble L (Some ns) (Some cfg) (strip_namespace_from_xml t),
     strip_namespace_from_xml t).
Proof. intros H1 H2. unfold parse_reqif, nsmap_getitem. by rewrite H1, H2. Qed.

Lemma assemble_unexpected_root ns cfg x :
  tag_text (tag x) ≠ "REQ-IF" →
  assemble L ns cfg x = inl (NotImplementedError []).
Proof. intros H. unfold assemble. by rewrite bool_decide_eq_true_2. Qed.

Lemma assemble_empty ns cfg x :
  tag_text (tag x) = "REQ-IF" → find "THE-HEADER" x = None →
  assemble L ns cfg x = inr (create_empty L ns cfg).
Proof.
  intros Htag Hh. unfold assemble.
  rewrite bool_decide_eq_false_2 by (by intros []).
  case_bool_decide; [done|]. by rewrite Hh.
Qed.

Lemma find_Some_len name x h : find name x = Some h → len x ≠ 0.
Proof. unfold find, len. by destruct (children x). Qed.



Lemma assemble_inv ns cfg x b :
  is_Some (find "THE-HEADER" x) →
  assemble L ns cfg x = inr b →
  ∃ dts sts sos specs st,
    section "DATATYPES" x = Some dts
    ∧ section "SPEC-TYPES" x = Some sts
    ∧ section "SPEC-OBJECTS" x = Some sos
    ∧ section "SPECIFICATIONS" x = Some specs
    ∧ decoded (DataTypeParser_parse L) (children dts) (data_types b)
    ∧ for_in (children sts) (spec_object_types_body L) (None, [])
      = inr (st, spec_object_types b)
    ∧ decoded (ReqIFSpecificationParser_parse L) (children specs)
        (specifications b)
    ∧ decoded (SpecRelationParser_parse L)
        (section_children "SPEC-RELATIONS" x) (spec_relations b)
    ∧ decoded (SpecObjectParser_parse L) (children sos) (bundle_spec_objects b)
    ∧ spec_objects_lookup b
      = index_by (spec_object_identifier L) ∅ (bundle_spec_objects b)
    ∧ spec_relations_parent_lookup b
      = PyDict (Some []) (foldl (add_target L) ∅ (spec_relations b))
    ∧ bundle_namespace b = ns ∧ configuration b = cfg.
Proof.
  intros [h Hh]. unfold assemble.
  case_bool_decide; [done|].
  rewrite bool_decide_eq_false_2 by (by eapply find_Some_len).
  rewrite Hh.
  unfold section_children, section, located_content.
  destruct (find "CORE-CONTENT" x) as [cc|]; [|done].
  destruct (find "REQ-IF-CONTENT" cc) as [ric|]; [|done].
  destruct (find "DATATYPES" ric) as [dts|]; [|done].
  destruct (for_in (children dts) _ _) as [|[dtl dtm]] eqn:Hdt; [done|].
  simpl.
  destruct (find "SPEC-OBJECTS" ric) as [sos|]; [|done].
  destruct (find "SPECIFICATIONS" ric) as [specs|]; [|done].
  destruct (find "SPEC-TYPES" ric) as [sts|]; [|done].
  destruct (for_in (children sts) _ _) as [|[st sotl]] eqn:Hsot; [done|].
  simpl.
  destruct (for_in (children specs) _ _) as [|spl] eqn:Hsp; [done|].
  simpl.
  destruct (for_in _ (spec_relations_body L) _) as [|[rl rm]] eqn:Hrl; [done|].
  simpl.
  destruct (for_in (children sos) _ _) as [|[ol om]] eqn:Hol; [done|].
  simpl. intros [= <-]. simpl.
  apply for_in_data_types_inv in Hdt.
  apply for_in_specifications_inv in Hsp.
  apply for_in_spec_relations_inv in Hrl as [Hrl Hrm].
  apply for_in_spec_objects_inv in Hol as [Hol Hom].
  simpl in *. subst rm om.
  by exists dts, sts, sos, specs, st.
Qed.

Lemma for_in_data_types_raises xs s e :
  for_in xs (data_types_body L) s = inl e → ∃ e', e = LeafError e'.
Proof.
  revert s. induction xs as [|x xs IH]; intros [l m]; simpl; [done|].
  destruct (DataTypeParser_parse L x) as [e'|o]; simpl.
  - intros [= <-]. by eexists.
  - apply IH.
Qed.

Lemma assemble_missing ns cfg x name :
  tag_text (tag x) = "REQ-IF" →
  is_Some (find "THE-HEADER" x) →
  name ∈ ["DATATYPES"; "SPEC-TYPES"; "SPEC-OBJECTS"; "SPECIFICATIONS"] →
  section name x = None →
  ∃ e, assemble L ns cfg x = inl e ∧ raised_before_walk e.
Proof.
  intros Htag [h Hh] Hname. unfold assemble.
  rewrite bool_decide_eq_false_2 by (by intros []).
  rewrite bool_decide_eq_false_2 by (by eapply find_Some_len).
  rewrite Hh. unfold section, located_content.
  destruct (find "CORE-CONTENT" x) as [cc|];
    [|intros _; eexists; split; [done|by right]].
  destruct (find "REQ-IF-CONTENT" cc) as [ric|];
    [|intros _; by eexists].
  destruct (find "DATATYPES" ric) as [dts|] eqn:Hdts;
    [|intros _; by eexists].
  destruct (for_in (children dts) _ _) as [e|[dtl dtm]] eqn:Hdt.
  { intros _. apply for_in_data_types_raises in Hdt as [e' ->]. by eexists. }
  simpl.
  destruct (find "SPEC-OBJECTS" ric) as [sos|] eqn:Hsos;
    [|intros _; by eexists].
  destruct (find "SPECIFICATIONS" ric) as [specs|] eqn:Hspecs;
    [|intros _; by eexists].
  destruct (find "SPEC-TYPES" ric) as [sts|] eqn:Hsts;
    [|intros _; eexists; split; [done|by left]].
  intros Hnone. exfalso.
  repeat (apply elem_of_cons in Hname as [->|Hname]; [congruence|]).
  by apply elem_of_nil in Hname.
Qed.

End Paths.

(** ** The properties of the specification *)

Section Walk_of_spec_types.
Context (L : LeafParsers).

(** A child of another tag after a decoded [SPEC-OBJECT-TYPE]: the
    [append] runs again with the previous [spec_type]. *)
Lemma spec_types_walk_repeats x y v :
  tag_text (tag x) = "SPEC-OBJECT-TYPE" →
  tag_text (tag y) ≠ "SPEC-OBJECT-TYPE" →
  SpecObjectTypeParser_parse L x = inr v →
  for_in [x; y] (spec_object_types_body L) (None, []) = inr (Some v, [v; v]).
Proof.
  intros Hx Hy Hv. simpl.
  rewrite bool_decide_eq_true_2 by done. rewrite Hv. simpl.
  by rewrite bool_decide_eq_false_2.
Qed.

(** A first child of another tag: [spec_type] is read before any
    assignment. *)
Lemma spec_types_walk_unbound y xs :
  tag_text (tag y) ≠ "SPEC-OBJECT-TYPE" →
  for_in (y :: xs) (spec_object_types_body L) (None, [])
  = inl (UnboundLocalError "spec_type").
Proof. intros Hy. simpl. by rewrite bool_decide_eq_false_2. Qed.

End Walk_of_spec_types.

(** C1 (the code departs from the claim).  On a document whose
    [SPEC-TYPES] holds one [SPEC-OBJECT-TYPE] and then one element of
    another tag, [parse_reqif] returns a bundle whose [spec_object_types]
    has two entries, the decoded type twice; with the other element first
    it raises [UnboundLocalError]. *)
Theorem unrelated_spec_type_child_is_not_skipped :
  (∃ b, (parse_reqif Sample.parsers Sample.other_spec_type_last).1 = inr b
        ∧ spec_object_types b
          = [Sample.mkNamed "SOT-1" None; Sample.mkNamed "SOT-1" None])
  ∧ (parse_reqif Sample.parsers Sample.other_spec_type_first).1
    = inl (UnboundLocalError "spec_type").
Proof.
  split.
  - exists (sample_bundle
              [Sample.mkNamed "SOT-1" None; Sample.mkNamed "SOT-1" None]
              sample_objects [Sample.mkRelation "SR-1" "SO-1" "SO-2"]).
    split; [vm_compute; reflexivity|reflexivity].
  - vm_compute. reflexivity.
Qed.

(** C2 (counterexample).  The error does not identify the missing
    section, and the absence of [SPEC-TYPES] and that of [SPEC-OBJECTS] are
    not reported as one error: without [DATATYPES], without
    [SPECIFICATIONS] and without [SPEC-OBJECTS] the same bare
    [AssertionError] is raised, without [SPEC-TYPES] a bare
    [NotImplementedError]. *)
Lemma missing_sections_are_not_told_apart :
  section "DATATYPES" (strip_namespace_from_xml Sample.without_datatypes) = None
  ∧ (parse_reqif Sample.parsers Sample.without_datatypes).1
    = inl AssertionError
  ∧ section "SPECIFICATIONS"
      (strip_namespace_from_xml Sample.without_specifications) = None
  ∧ (parse_reqif Sample.parsers Sample.without_specifications).1
    = inl AssertionError
  ∧ section "SPEC-OBJECTS"
      (strip_namespace_from_xml Sample.without_spec_objects) = None
  ∧ (parse_reqif Sample.parsers Sample.without_spec_objects).1
    = inl AssertionError
  ∧ section "SPEC-TYPES"
      (strip_namespace_from_xml Sample.without_spec_types) = None
  ∧ (parse_reqif Sample.parsers Sample.without_spec_types).1
    = inl (NotImplementedError []).
Proof. repeat split; vm_compute; reflexivity. Qed.

(** C2 (amended).  For every document whose root is [REQ-IF], has
    children and has a [THE-HEADER] child, if one of [CORE-CONTENT],
    [REQ-IF-CONTENT], [DATATYPES], [SPEC-TYPES], [SPEC-OBJECTS] or
    [SPECIFICATIONS] is absent, [parse_reqif] raises and returns no
    bundle; the exception is one of those raised before the walk of
    [SPEC-TYPES], none of which names a section. *)
Theorem missing_section_fails (L : LeafParsers) (t : Element) :
  localname (tag t) = "REQ-IF" →
  children t ≠ [] →
  has_child "THE-HEADER" t →
  find "CORE-CONTENT" (strip_namespace_from_xml t) = None
  ∨ located_content (strip_namespace_from_xml t) = None
  ∨ section "DATATYPES" (strip_namespace_from_xml t) = None
  ∨ section "SPEC-TYPES" (strip_namespace_from_xml t) = None
  ∨ section "SPEC-OBJECTS" (strip_namespace_from_xml t) = None
  ∨ section "SPECIFICATIONS" (strip_namespace_from_xml t) = None →
  ∃ e, (parse_reqif L t).1 = inl e ∧ raised_before_walk e.
Proof.
  intros Htag _ Hh Habsent.
  destruct (nsmap t !! (None : option string)) as [ns|] eqn:Hns;
    [|rewrite parse_reqif_no_default by done; eexists; split; [done|by left]].
  destruct (nsmap t !! Some "configuration") as [cfg|] eqn:Hcfg;
    [|erewrite parse_reqif_no_configuration by done;
      eexists; split; [done|by right]].
  erewrite parse_reqif_namespaces by done. cbn [fst].
  apply find_strip_is_Some in Hh. rewrite <- tag_text_strip in Htag.
  assert (∃ name,
    name ∈ ["DATATYPES"; "SPEC-TYPES"; "SPEC-OBJECTS"; "SPECIFICATIONS"]
    ∧ section name (strip_namespace_from_xml t) = None) as (name & Hin & Hnone).
  { destruct Habsent as [H|[H|[H|[H|[H|H]]]]].
    - exists "DATATYPES". split; [set_solver|].
      unfold section, located_content. by rewrite H.
    - exists "DATATYPES". split; [set_solver|]. unfold section. by rewrite H.
    - exists "DATATYPES". split; [set_solver|done].
    - exists "SPEC-TYPES". split; [set_solver|done].
    - exists "SPEC-OBJECTS". split; [set_solver|done].
    - exists "SPECIFICATIONS". split; [set_solver|done]. }
  by eapply assemble_missing.
Qed.

Lemma missing_section_fails_witness :
  ∃ e, (parse_reqif Sample.parsers Sample.without_spec_types).1 = inl e
       ∧ raised_before_walk e.
Proof.
  apply (missing_section_fails Sample.parsers Sample.without_spec_types).
  - reflexivity.
  - discriminate.
  - left. reflexivity.
  - right. right. right. left. vm_compute. reflexivity.
Defined.

(** C3 (the code departs from the claim).  A [REQ-IF] root with no child
    and no namespace declaration: [parse_reqif] raises [KeyError] on
    line 54, before the checks for an empty document, and returns no
    bundle. *)
Lemma empty_document_without_namespaces_raises :
  localname (tag (Sample.bare_root "REQ-IF" [])) = "REQ-IF"
  ∧ children (Sample.bare_root "REQ-IF" []) = []
  ∧ (parse_reqif Sample.parsers (Sample.bare_root "REQ-IF" [])).1
    = inl (KeyError None).
Proof. repeat split. Qed.

(** C4 (the code departs from the claim).  A root that is not [REQ-IF]
    and declares no namespace: the exception is the [KeyError] of line 54,
    not the [NotImplementedError] of the root check. *)
Lemma other_root_without_namespaces_raises_key_error :
  localname (tag (Sample.bare_root "DOCUMENT" [])) ≠ "REQ-IF"
  ∧ (parse_reqif Sample.parsers (Sample.bare_root "DOCUMENT" [])).1
    = inl (KeyError None).
Proof. split; [discriminate|reflexivity]. Qed.

(** C5 (the code departs from the claim).  An empty [REQ-IF] document
    whose root lacks a declaration: with no default namespace
    [parse_reqif] raises [KeyError(None)], with a default namespace but
    none for [configuration] it raises [KeyError('configuration')]; no
    bundle is returned and the tree is left as it was. *)
Theorem missing_namespace_declaration_raises :
  parse_reqif Sample.parsers (Sample.bare_root "REQ-IF" [])
  = (inl (KeyError None), Sample.bare_root "REQ-IF" [])
  ∧ parse_reqif Sample.parsers Sample.default_namespace_only
    = (inl (KeyError (Some "configuration")), Sample.default_namespace_only).
Proof. split; vm_compute; reflexivity. Qed.

(** A document that [parse_reqif] assembles: both namespaces are
    declared, the root is [REQ-IF] with a header, the four required
    sections are found, every child of [DATATYPES], [SPECIFICATIONS] and
    [SPEC-RELATIONS] decodes, and the walk over [SPEC-TYPES] completes. *)
Section Assembled_document.
Context (L : LeafParsers) (t : Element) (ns cfg : string).
Context (h dts sts sos specs : Element).
Context (dtl : list (DataType L)) (st : option (SpecObjectType L)).
Context (sotl : list (SpecObjectType L)) (spl : list (ReqIFSpecification L)).
Context (rl : list (SpecRelation L)).

Hypothesis Hns : nsmap t !! (None : option string) = Some ns.
Hypothesis Hcfg : nsmap t !! Some "configuration" = Some cfg.
Hypothesis Htag : localname (tag t) = "REQ-IF".
Hypothesis Hheader : find "THE-HEADER" (strip_namespace_from_xml t) = Some h.
Hypothesis Hdts : section "DATATYPES" (strip_namespace_from_xml t) = Some dts.
Hypothesis Hsts : section "SPEC-TYPES" (strip_namespace_from_xml t) = Some sts.
Hypothesis Hsos : section "SPEC-OBJECTS" (strip_namespace_from_xml t) = Some sos.
Hypothesis Hspecs :
  section "SPECIFICATIONS" (strip_namespace_from_xml t) = Some specs.
Hypothesis Hdtl : decoded (DataTypeParser_parse L) (children dts) dtl.
Hypothesis Hsotl :
  for_in (children sts) (spec_object_types_body L) (None, []) = inr (st, sotl).
Hypothesis Hspl : decoded (ReqIFSpecificationParser_parse L) (children specs) spl.



End Assembled_document.

(** Runs a leaf parser of a concrete instance over concrete elements. *)
Ltac run_decoded :=
  lazymatch goal with
  | |- decoded ?parse ?xs ?objs =>
      let xs' := eval vm_compute in xs in
      change (decoded parse xs' objs);
      repeat (constructor; [vm_compute; reflexivity|]); constructor
  end.



Section Inversion.
Context (L : LeafParsers).

Lemma parse_reqif_inr t b :
  (parse_reqif L t).1 = inr b →
  ∃ ns cfg,
    nsmap t !! (None : option string) = Some ns
    ∧ nsmap t !! Some "configuration" = Some cfg
    ∧ assemble L (Some ns) (Some cfg) (strip_namespace_from_xml t) = inr b.
Proof.
  unfold parse_reqif, nsmap_getitem.
  destruct (nsmap t !! None) as [ns|]; [|done].
  destruct (nsmap t !! Some "configuration") as [cfg|]; [|done].
  intros Hb. by exists ns, cfg.
Qed.

Lemma assemble_inr_tag ns cfg x b :
  assemble L ns cfg x = inr b → tag_text (tag x) = "REQ-IF".
Proof.
  unfold assemble. case_bool_decide as Htag; [done|].
  intros _. by destruct (decide (tag_text (tag x) = "REQ-IF")).
Qed.

(** The target of the [i]-th relation sits in the targets of its source
    after the targets of the earlier relations of that source. *)
Lemma targets_of_position (rels : list (SpecRelation L)) i r :
  rels !! i = Some r →
  targets_of L (source L r) rels
    !! length (targets_of L (source L r) (take i rels))
  = Some (target L r).
Proof.
  intros Hi. pose proof (take_drop_middle rels i r Hi) as Hsplit.
  revert Hsplit. generalize (take i rels) (drop (S i) rels).
  intros l1 l2 <-.
  unfold targets_of. rewrite filter_app, filter_cons.
  rewrite decide_True by done. rewrite fmap_app, fmap_cons.
  by apply list_lookup_middle.
Qed.

End Inversion.

(** C8 (the code departs from the claim).  With a [SPEC-RELATION-TYPE] after the one
    [SPEC-OBJECT-TYPE], the bundle's [spec_object_types] is not the list of
    the decoded [SPEC-OBJECT-TYPE] elements: that list has one object, the
    collection has it twice. *)
Lemma spec_object_types_repeat_an_object :
  ∃ b, (parse_reqif Sample.parsers Sample.other_spec_type_last).1 = inr b
       ∧ decoded (SpecObjectTypeParser_parse Sample.parsers)
           (filter (λ c, tag_text (tag c) = "SPEC-OBJECT-TYPE")
              (section_children "SPEC-TYPES"
                 (strip_namespace_from_xml Sample.other_spec_type_last)))
           [Sample.mkNamed "SOT-1" None]
       ∧ spec_object_types b
         = [Sample.mkNamed "SOT-1" None; Sample.mkNamed "SOT-1" None].
Proof.
  exists (sample_bundle
            [Sample.mkNamed "SOT-1" None; Sample.mkNamed "SOT-1" None]
            sample_objects [Sample.mkRelation "SR-1" "SO-1" "SO-2"]).
  split; [vm_compute; reflexivity|]. split; [|reflexivity].
  run_decoded.
Qed.

(** C9 (the code departs from the claim).  Parsing the scenario document
    returns a bundle; parsing the tree again, as the first call left it,
    raises [KeyError(None)] on line 54: the normalisation has removed the
    default namespace declaration that the subscript requires. *)
Lemma second_parse_of_the_same_tree_raises :
  ∃ b, (parse_reqif Sample.parsers Sample.document).1 = inr b
       ∧ (parse_reqif Sample.parsers
            (parse_reqif Sample.parsers Sample.document).2).1
         = inl (KeyError None).
Proof.
  exists document_bundle.
  split; vm_compute; reflexivity.
Qed.

Lemma targets_of_nil (L : LeafParsers) (s : string)
    (rels : list (SpecRelation L)) :
  (∀ r, r ∈ rels → source L r ≠ s) → targets_of L s rels = [].
Proof.
  unfold targets_of. induction rels as [|r rels IH]; intros Hs; [done|].
  rewrite filter_cons, decide_False by (apply Hs; left).
  apply IH. intros r' Hr'. apply Hs. by right.
Qed.




(** * Further properties of [reqif/parser.py] *)

(** ** The normalisation, element by element *)

Lemma flat_map_fmap {A B C : Type} (f : A → B) (g : B → list C) (l : list A) :
  flat_map g (f <$> l) = flat_map (λ x, g (f x)) l.
Proof.
  induction l as [|x l IH]; [done|]. rewrite fmap_cons. simpl. by rewrite IH.
Qed.

Lemma fmap_flat_map {A B C : Type} (f : B → C) (g : A → list B) (l : list A) :
  f <$> flat_map g l = flat_map (λ x, f <$> g x) l.
Proof.
  induction l as [|x l IH]; simpl; [done|]. by rewrite fmap_app, IH.
Qed.

Lemma flat_map_Forall_ext {A B : Type} (f g : A → list B) (l : list A) :
  Forall (λ x, f x = g x) l → flat_map f l = flat_map g l.
Proof. induction 1 as [|x l Hx _ IH]; simpl; [done|]. by rewrite Hx, IH. Qed.

Lemma getiterator_strip_tags e :
  getiterator (strip_tags e) = strip_tags <$> getiterator e.
Proof.
  induction e as [q ns attrs t cs IH] using Element_ind.
  cbn [strip_tags getiterator]. rewrite fmap_cons. f_equal.
  rewrite fmap_flat_map. change (map strip_tags cs) with (strip_tags <$> cs).
  rewrite flat_map_fmap. by apply flat_map_Forall_ext.
Qed.

Lemma getiterator_cleanup e :
  getiterator (cleanup_namespaces e) = cleanup_namespaces <$> getiterator e.
Proof.
  induction e as [q ns attrs t cs IH] using Element_ind.
  cbn [cleanup_namespaces getiterator]. rewrite fmap_cons. f_equal.
  rewrite fmap_flat_map.
  change (map cleanup_namespaces cs) with (cleanup_namespaces <$> cs).
  rewrite flat_map_fmap. by apply flat_map_Forall_ext.
Qed.

(** Normalising a tree normalises each of its subtrees, in place. *)
Lemma getiterator_strip t :
  getiterator (strip_namespace_from_xml t)
  = strip_namespace_from_xml <$> getiterator t.
Proof.
  unfold strip_namespace_from_xml.
  rewrite getiterator_cleanup, getiterator_strip_tags.
  by rewrite <- list_fmap_compose.
Qed.

Lemma content_strip e : content (strip_namespace_from_xml e) = content e.
Proof.
  destruct e as [q ns attrs t cs]. unfold content. cbn.
  by rewrite !length_map.
Qed.

Lemma uses_inv p uri e :
  uses p uri e = true →
  ∃ d, d ∈ getiterator e
       ∧ (qname_uses p uri (tag d) = true
          ∨ ∃ a, a ∈ attrib d ∧ attr_uses p uri a = true).
Proof.
  induction e as [q ns attrs t cs IH] using Element_ind.
  cbn [uses]. rewrite !orb_true_iff. intros [[Hq|Ha]|Hc].
  - eexists. split; [by left|]. by left.
  - eexists. split; [by left|]. right. cbn [attrib].
    clear -Ha. induction attrs as [|a attrs IHa]; [done|].
    cbn in Ha. apply orb_true_iff in Ha as [Ha|Ha].
    + exists a. split; [by left|done].
    + destruct (IHa Ha) as (a' & Hin & Hu). exists a'. split; [by right|done].
  - cbn [getiterator].
    assert (∃ d, d ∈ flat_map getiterator cs
                 ∧ (qname_uses p uri (tag d) = true
                    ∨ ∃ a, a ∈ attrib d ∧ attr_uses p uri a = true))
      as (d & Hd & Hu); [|exists d; split; [by right|done]].
    induction IH as [|c cs Hc' _ IHcs]; [done|].
    cbn in Hc. apply orb_true_iff in Hc as [Hc|Hc].
    + destruct (Hc' Hc) as (d & Hd & Hu). exists d. split; [|done].
      cbn. apply elem_of_app. by left.
    + destruct (IHcs Hc) as (d & Hd & Hu). exists d. split; [|done].
      cbn. apply elem_of_app. by right.
Qed.

Lemma attrib_strip_tags e : attrib (strip_tags e) = attrib e.
Proof. by destruct e. Qed.

Lemma attrib_cleanup e : attrib (cleanup_namespaces e) = attrib e.
Proof. by destruct e. Qed.

Lemma uses_cleanup p uri e : uses p uri (cleanup_namespaces e) = uses p uri e.
Proof.
  induction e as [q ns attrs t cs IH] using Element_ind.
  cbn [cleanup_namespaces uses]. f_equal.
  induction IH as [|c cs Hc _ IHcs]; [done|]. cbn. by rewrite Hc, IHcs.
Qed.

Lemma cleanup_idempotent e :
  cleanup_namespaces (cleanup_namespaces e) = cleanup_namespaces e.
Proof.
  induction e as [q ns attrs t cs IH] using Element_ind.
  cbn [cleanup_namespaces]. f_equal.
  - apply map_eq. intros p.
    set (e := Elem q ns attrs t cs).
    change (Elem q (filter (λ d, uses d.1 d.2 e = true) ns) attrs t
                 (map cleanup_namespaces cs)) with (cleanup_namespaces e).
    destruct (filter _ ns !! p) as [uri|] eqn:Hp.
    + apply map_lookup_filter_Some. split; [done|].
      apply map_lookup_filter_Some in Hp as [_ Hu]. by rewrite uses_cleanup.
    + apply map_lookup_filter_None. by left.
  - rewrite map_map. induction IH as [|c cs Hc _ IHcs]; [done|].
    cbn. by rewrite Hc, IHcs.
Qed.

Lemma strip_tags_cleanup_strip_tags e :
  strip_tags (cleanup_namespaces (strip_tags e))
  = cleanup_namespaces (strip_tags e).
Proof.
  induction e as [q ns attrs t cs IH] using Element_ind.
  cbn [strip_tags cleanup_namespaces]. f_equal.
  rewrite !map_map. induction IH as [|c cs Hc _ IHcs]; [done|].
  cbn. by rewrite Hc, IHcs.
Qed.

(** X1.  Normalising a normalised tree changes nothing: the tags are
    local names already, and no unused declaration is left to remove. *)
Theorem strip_namespace_from_xml_idempotent (t : Element) :
  strip_namespace_from_xml (strip_namespace_from_xml t)
  = strip_namespace_from_xml t.
Proof.
  unfold strip_namespace_from_xml.
  by rewrite strip_tags_cleanup_strip_tags, cleanup_idempotent.
Qed.

(** X2.  The normalisation keeps the elements of the tree, in document
    order, each with its local name, its attributes, its text and its
    number of children; afterwards every tag is a local name in no
    namespace. *)
Theorem strip_namespace_from_xml_keeps_content (t : Element) :
  content <$> getiterator (strip_namespace_from_xml t)
  = content <$> getiterator t
  ∧ Forall (λ e, tag_text (tag e) = localname (tag e)
                 ∧ namespace (tag e) = None ∧ prefix (tag e) = None)
      (getiterator (strip_namespace_from_xml t)).
Proof.
  rewrite getiterator_strip. split.
  - rewrite <- list_fmap_compose. apply list_fmap_ext.
    intros i e _. apply content_strip.
  - apply Forall_fmap, Forall_true. intros e. cbn.
    unfold strip_namespace_from_xml.
    by rewrite tag_cleanup, tag_strip_tags.
Qed.

(** X3.  After the normalisation an element declares nothing it did not
    declare before, and every declaration left is one with a prefix that
    an attribute of its subtree is written with: the default namespace
    and the prefixes that only elements used are gone. *)
Theorem strip_namespace_from_xml_declarations (t e' : Element)
    (p : option string) (uri : string) :
  e' ∈ getiterator (strip_namespace_from_xml t) →
  nsdef e' !! p = Some uri →
  (∃ e, e ∈ getiterator t ∧ e' = strip_namespace_from_xml e
        ∧ nsdef e !! p = Some uri)
  ∧ ∃ pre, p = Some pre ∧ attribute_in pre uri e'.
Proof.
  rewrite getiterator_strip. intros He' Hp.
  apply list_elem_of_fmap in He' as (e & -> & He).
  unfold strip_namespace_from_xml in Hp. rewrite nsdef_cleanup in Hp.
  apply map_lookup_filter_Some in Hp as [Hp Hu]. cbn [fst snd] in Hu.
  assert (nsdef e !! p = Some uri) as Hdecl by (by destruct e).
  split; [by exists e|].
  apply uses_inv in Hu as (d & Hd & [Hq|(a & Ha & Hu)]).
  - rewrite getiterator_strip_tags in Hd.
    apply list_elem_of_fmap in Hd as (d' & -> & _).
    rewrite tag_strip_tags in Hq. unfold qname_uses in Hq. cbn in Hq.
    by apply bool_decide_eq_true in Hq as [? _].
  - unfold attr_uses in Hu.
    destruct (attr_ns a.1) as [[pre uri']|] eqn:Hns; [|done].
    apply bool_decide_eq_true in Hu as [-> ->].
    exists pre. split; [done|].
    exists (cleanup_namespaces d), a. split; [|split; [|done]].
    + unfold strip_namespace_from_xml. rewrite getiterator_cleanup.
      by apply list_elem_of_fmap_2.
    + by rewrite attrib_cleanup.
Qed.

Lemma strip_namespace_from_xml_declarations_witness :
  (∃ e, e ∈ getiterator Example.with_schema_location
        ∧ strip_namespace_from_xml Example.with_schema_location
          = strip_namespace_from_xml e
        ∧ nsdef e !! Some "xsi" = Some Example.xsi)
  ∧ ∃ pre, Some "xsi" = Some pre
           ∧ attribute_in pre Example.xsi
               (strip_namespace_from_xml Example.with_schema_location).
Proof.
  apply (strip_namespace_from_xml_declarations Example.with_schema_location).
  - left.
  - vm_compute. reflexivity.
Defined.

(** ** The exceptions of [parse_reqif] *)

Section Failing_loops.
Context (L : LeafParsers).

Local Abbreviation E := (exn (LeafException L)).

(** A loop whose body decodes the element and folds the object into the
    loop's variables raises what the leaf parser raises, at the first
    element it raises on. *)
Section Decoding_loop.
Context {A S : Type} (parse : Element → LeafException L + A).
Context (step : S → A → S) (body : Element → S → E + S) (I : S → Prop).
Hypothesis body_step :
  ∀ x s, I s → body x s = (o ← call (parse x); mret (step s o)).
Hypothesis step_I : ∀ s o, I s → I (step s o).

Lemma for_in_raises xs s e :
  I s → for_in xs body s = inl e → ∃ e', e = LeafError e'.
Proof.
  revert s. induction xs as [|x xs IH]; intros s Hs; simpl; [done|].
  rewrite body_step by done.
  destruct (parse x) as [e'|o]; simpl.
  - intros [= <-]. by eexists.
  - apply IH. by apply step_I.
Qed.

Lemma for_in_first_failure pre x post objs s e :
  I s → decoded parse pre objs → parse x = inl e →
  for_in (pre ++ x :: post) body s = inl (LeafError e).
Proof.
  intros Hs Hpre Hx. revert s Hs.
  induction Hpre as [|y o pre objs Hy _ IH]; intros s Hs; simpl.
  - rewrite body_step by done. by rewrite Hx.
  - rewrite body_step by done. rewrite Hy. simpl. apply IH. by apply step_I.
Qed.

End Decoding_loop.

Lemma data_types_body_step x (s : list (DataType L) * gmap string (DataType L)) :
  data_types_body L x s
  = (o ← call (DataTypeParser_parse L x);
     mret (s.1 ++ [o], <[data_type_identifier L o := o]> s.2)).
Proof. by destruct s. Qed.

Lemma spec_objects_body_step x
    (s : list (SpecObject L) * gmap string (SpecObject L)) :
  spec_objects_body L x s
  = (o ← call (SpecObjectParser_parse L x);
     mret (s.1 ++ [o], <[spec_object_identifier L o := o]> s.2)).
Proof. by destruct s. Qed.

(** The walk over [SPEC-TYPES] also reads [spec_type] when it is
    unbound. *)
Lemma for_in_spec_object_types_raises xs s e :
  for_in xs (spec_object_types_body L) s = inl e →
  e = UnboundLocalError "spec_type" ∨ ∃ e', e = LeafError e'.
Proof.
  revert s. induction xs as [|x xs IH]; intros [st l]; simpl; [done|].
  case_bool_decide.
  - destruct (SpecObjectTypeParser_parse L x) as [e'|v]; simpl.
    + intros [= <-]. right. by eexists.
    + apply IH.
  - simpl. destruct st as [v|]; simpl.
    + apply IH.
    + intros [= <-]. by left.
Qed.

Lemma for_in_spec_relations_raises xs s e :
  default_factory s.2 = Some [] →
  for_in xs (spec_relations_body L) s = inl e → ∃ e', e = LeafError e'.
Proof.
  apply (for_in_raises (SpecRelationParser_parse L)
           (λ s r, (s.1 ++ [r], PyDict (Some []) (add_target L (items s.2) r)))
           (spec_relations_body L) (λ s, default_factory s.2 = Some []));
    [by intros; apply spec_relations_body_step|done].
Qed.

Lemma for_in_specifications_raises xs s e :
  for_in xs (specifications_body L) s = inl e → ∃ e', e = LeafError e'.
Proof.
  by apply (for_in_raises (ReqIFSpecificationParser_parse L)
              (λ s o, s ++ [o]) (specifications_body L) (λ _, True)).
Qed.

Lemma for_in_spec_objects_raises xs s e :
  for_in xs (spec_objects_body L) s = inl e → ∃ e', e = LeafError e'.
Proof.
  apply (for_in_raises (SpecObjectParser_parse L)
           (λ s o, (s.1 ++ [o], <[spec_object_identifier L o := o]> s.2))
           (spec_objects_body L) (λ _, True));
    [by intros; apply spec_objects_body_step|done|done].
Qed.

(** X4.  Once the tree is normalised, the rest of [parse_reqif] (lines
    62-182, on the normalised root) ends with a bundle or with one of
    five exceptions: a bare [NotImplementedError],
    [NotImplementedError(None)], a bare [AssertionError],
    [UnboundLocalError] for [spec_type], or what a leaf parser raised.
    It raises no [KeyError]: the relation index is a [defaultdict], and
    the other two indexes are only assigned to. *)
Theorem exceptions_after_normalisation (ns cfg : option string)
    (x : Element) (e : exn (LeafException L)) :
  assemble L ns cfg x = inl e →
  e = NotImplementedError [] ∨ e = NotImplementedError [PyNone]
  ∨ e = AssertionError ∨ e = UnboundLocalError "spec_type"
  ∨ ∃ e', e = LeafError e'.
Proof.
  unfold assemble. case_bool_decide; [intros [= <-]; by left|].
  case_bool_decide; [done|].
  destruct (find "THE-HEADER" x); [|done].
  destruct (find "CORE-CONTENT" x) as [cc|];
    [|intros [= <-]; right; by left].
  destruct (find "REQ-IF-CONTENT" cc) as [ric|];
    [|intros [= <-]; do 2 right; by left].
  destruct (find "DATATYPES" ric) as [dts|];
    [|intros [= <-]; do 2 right; by left].
  destruct (for_in (children dts) _ _) as [e1|[dtl dtm]] eqn:Hdt.
  { intros [= <-]. do 4 right.
    by apply for_in_data_types_raises in Hdt. }
  simpl.
  destruct (find "SPEC-OBJECTS" ric) as [sos|];
    [|intros [= <-]; do 2 right; by left].
  destruct (find "SPECIFICATIONS" ric) as [specs|];
    [|intros [= <-]; do 2 right; by left].
  destruct (find "SPEC-TYPES" ric) as [sts|]; [|intros [= <-]; by left].
  destruct (for_in (children sts) _ _) as [e2|[st sotl]] eqn:Hsot.
  { intros [= <-]. do 3 right.
    apply for_in_spec_object_types_raises in Hsot as [->|?]; [by left|by right]. }
  simpl.
  destruct (for_in (children specs) _ _) as [e3|spl] eqn:Hsp.
  { intros [= <-]. do 4 right.
    by apply for_in_specifications_raises in Hsp. }
  simpl.
  destruct (for_in _ (spec_relations_body L) _) as [e4|[rl rm]] eqn:Hrl.
  { intros [= <-]. do 4 right.
    by apply for_in_spec_relations_raises in Hrl. }
  simpl.
  destruct (for_in (children sos) _ _) as [e5|[ol om]] eqn:Hol; [|done].
  intros [= <-]. do 4 right.
  by apply for_in_spec_objects_raises in Hol.
Qed.

End Failing_loops.

Lemma exceptions_after_normalisation_witness :
  ∃ e : exn string,
    assemble Sample.parsers (Some Sample.reqif_xsd)
      (Some Sample.toolextensions)
      (strip_namespace_from_xml Sample.other_spec_type_first)
    = inl e
    ∧ (e = NotImplementedError [] ∨ e = NotImplementedError [PyNone]
       ∨ e = AssertionError ∨ e = UnboundLocalError "spec_type"
       ∨ ∃ e', e = LeafError e').
Proof.
  exists (UnboundLocalError "spec_type").
  assert (assemble Sample.parsers (Some Sample.reqif_xsd)
            (Some Sample.toolextensions)
            (strip_namespace_from_xml Sample.other_spec_type_first)
          = inl (UnboundLocalError "spec_type")) as He
    by (vm_compute; reflexivity).
  split; [exact He|].
  exact (exceptions_after_normalisation Sample.parsers _ _ _ _ He).
Defined.

Section Exceptions_by_cause.
Context (L : LeafParsers) (t : Element) (ns cfg : string).

Hypothesis Hns : nsmap t !! (None : option string) = Some ns.
Hypothesis Hcfg : nsmap t !! Some "configuration" = Some cfg.
Hypothesis Htag : localname (tag t) = "REQ-IF".
Hypothesis Hheader : has_child "THE-HEADER" t.

Lemma parse_reqif_past_header :
  (parse_reqif L t).1
  = match find "CORE-CONTENT" (strip_namespace_from_xml t) with
    | None => inl (NotImplementedError [PyNone])
    | Some cc =>
        match find "REQ-IF-CONTENT" cc with
        | None => inl AssertionError
        | Some ric =>
            match find "DATATYPES" ric with
            | None => inl AssertionError
            | Some dts =>
                match for_in (children dts) (data_types_body L) ([], ∅) with
                | inl e => inl e
                | inr _ =>
                    match find "SPEC-OBJECTS" ric, find "SPECIFICATIONS" ric,
                          find "SPEC-TYPES" ric with
                    | None, _, _ => inl AssertionError
                    | Some _, None, _ => inl AssertionError
                    | Some _, Some _, None => inl (NotImplementedError [])
                    | Some _, Some _, Some _ =>
                        assemble L (Some ns) (Some cfg)
                          (strip_namespace_from_xml t)
                    end
                end
            end
        end
    end.
Proof.
  rewrite (parse_reqif_namespaces L t ns cfg) by done. cbn [fst].
  apply find_strip_is_Some in Hheader as [h Hh].
  unfold assemble at 1. rewrite tag_text_strip.
  rewrite bool_decide_eq_false_2 by (by intros []).
  rewrite bool_decide_eq_false_2 by (by eapply find_Some_len).
  rewrite Hh.
  destruct (find "CORE-CONTENT" _) as [cc|] eqn:Hcc; [|done].
  destruct (find "REQ-IF-CONTENT" cc) as [ric|] eqn:Hric; [|done].
  destruct (find "DATATYPES" ric) as [dts|] eqn:Hdts; [|done].
  destruct (for_in (children dts) _ _) as [e|[dtl dtm]] eqn:Hdt; [done|].
  simpl.
  destruct (find "SPEC-OBJECTS" ric) as [sos|] eqn:Hsos; [|done].
  destruct (find "SPECIFICATIONS" ric) as [specs|] eqn:Hspecs; [|done].
  destruct (find "SPEC-TYPES" ric) as [sts|] eqn:Hsts; [|done].
  unfold assemble. rewrite tag_text_strip.
  rewrite bool_decide_eq_false_2 by (by intros []).
  rewrite bool_decide_eq_false_2 by (by eapply find_Some_len).
  by rewrite Hh, Hcc, Hric, Hdts, Hdt, Hsos, Hspecs, Hsts.
Qed.

(** X5.  Which exception reports which missing section, for a [REQ-IF]
    document with both namespaces and a header.  No [CORE-CONTENT]:
    [NotImplementedError(None)].  No [REQ-IF-CONTENT], no [DATATYPES]: a
    bare [AssertionError].  Once the data types are decoded: no
    [SPEC-OBJECTS], or no [SPECIFICATIONS] beside [SPEC-OBJECTS], a bare
    [AssertionError]; no [SPEC-TYPES] beside the two, a bare
    [NotImplementedError]. *)
Theorem missing_section_exception :
  (find "CORE-CONTENT" (strip_namespace_from_xml t) = None →
   (parse_reqif L t).1 = inl (NotImplementedError [PyNone]))
  ∧ (∀ cc, find "CORE-CONTENT" (strip_namespace_from_xml t) = Some cc →
       find "REQ-IF-CONTENT" cc = None →
       (parse_reqif L t).1 = inl AssertionError)
  ∧ (∀ ric, located_content (strip_namespace_from_xml t) = Some ric →
       (find "DATATYPES" ric = None →
        (parse_reqif L t).1 = inl AssertionError)
       ∧ ∀ dts dtl,
           find "DATATYPES" ric = Some dts →
           decoded (DataTypeParser_parse L) (children dts) dtl →
           (find "SPEC-OBJECTS" ric = None →
            (parse_reqif L t).1 = inl AssertionError)
           ∧ (is_Some (find "SPEC-OBJECTS" ric) →
              find "SPECIFICATIONS" ric = None →
              (parse_reqif L t).1 = inl AssertionError)
           ∧ (is_Some (find "SPEC-OBJECTS" ric) →
              is_Some (find "SPECIFICATIONS" ric) →
              find "SPEC-TYPES" ric = None →
              (parse_reqif L t).1 = inl (NotImplementedError []))).
Proof.
  rewrite parse_reqif_past_header. unfold located_content.
  split; [by intros ->|]. split; [by intros cc -> ->|].
  intros ric Hric.
  destruct (find "CORE-CONTENT" _) as [cc|]; [|done]. rewrite Hric.
  split; [by intros ->|].
  intros dts dtl -> Hdtl. rewrite (for_in_data_types L _ _ Hdtl).
  split; [by intros ->|]. split.
  - by intros [sos ->] ->.
  - by intros [sos ->] [specs ->] ->.
Qed.

(** X6.  For a [REQ-IF] document with both namespaces and a header
    whose normalised tree holds [DATATYPES] under [REQ-IF-CONTENT]: when
    a child of [DATATYPES] is the first that the data-type parser raises
    on, [parse_reqif] raises that exception, whether or not [SPEC-TYPES],
    [SPEC-OBJECTS] and [SPECIFICATIONS] are present beside [DATATYPES]. *)
Theorem data_type_exception_with_sections_missing (ric dts c : Element)
    (pre post : list Element) (objs : list (DataType L))
    (e : LeafException L) :
  located_content (strip_namespace_from_xml t) = Some ric →
  find "DATATYPES" ric = Some dts →
  children dts = pre ++ c :: post →
  decoded (DataTypeParser_parse L) pre objs →
  DataTypeParser_parse L c = inl e →
  (parse_reqif L t).1 = inl (LeafError e).
Proof.
  intros Hric Hdts Hkids Hpre Hc. rewrite parse_reqif_past_header.
  unfold located_content in Hric.
  destruct (find "CORE-CONTENT" _) as [cc|]; [|done].
  rewrite Hric, Hdts, Hkids.
  by rewrite (for_in_first_failure L (DataTypeParser_parse L)
                (λ s o, (s.1 ++ [o], <[data_type_identifier L o := o]> s.2))
                (data_types_body L) (λ _, True)
                (λ x s _, data_types_body_step L x s) (λ _ _ _, I)
                pre c post objs ([], ∅) e I Hpre Hc).
Qed.

End Exceptions_by_cause.

(** ** The two indexes *)

Lemma filter_none {A : Type} (P : A → Prop) `{∀ x, Decision (P x)} (l : list A) :
  Forall (λ x, ¬ P x) l → filter P l = [].
Proof.
  induction 1 as [|x l Hx _ IH]; [done|]. by rewrite filter_cons_False.
Qed.

Lemma index_by_snoc {A : Type} (key : A → string) m (objs : list A) o :
  index_by key m (objs ++ [o]) = <[key o := o]> (index_by key m objs).
Proof. unfold index_by. by rewrite foldl_snoc. Qed.

(** An index built by assignment holds, for an identifier, the last
    object of that identifier. *)
Lemma index_by_lookup {A : Type} (key : A → string) (objs : list A) i :
  index_by key ∅ objs !! i = last (filter (λ o, key o = i) objs).
Proof.
  induction objs as [|o objs IH] using rev_ind; [done|].
  rewrite index_by_snoc, filter_app, filter_cons, filter_nil.
  destruct (decide (key o = i)) as [->|Hne].
  - by rewrite lookup_insert_eq, last_snoc.
  - by rewrite lookup_insert_ne, app_nil_r.
Qed.

Lemma index_by_dom {A : Type} (key : A → string) (objs : list A) :
  dom (index_by key ∅ objs) = list_to_set (C := gset string) (key <$> objs).
Proof.
  induction objs as [|o objs IH] using rev_ind; [apply dom_empty_L|].
  rewrite index_by_snoc, dom_insert_L, IH, fmap_app, list_to_set_app_L.
  cbn. rewrite union_empty_r_L. apply union_comm_L.
Qed.

Lemma total_targets_add_target (L : LeafParsers) m (r : SpecRelation L) :
  total_targets (add_target L m r) = S (total_targets m).
Proof.
  unfold total_targets, add_target.
  destruct (m !! source L r) as [ts|] eqn:Hs; simpl.
  - rewrite <- (insert_delete_eq m).
    rewrite map_to_list_insert by apply lookup_delete_eq.
    rewrite <- (insert_delete_id m (source L r) ts Hs) at 2.
    rewrite (map_to_list_insert (delete _ m)) by apply lookup_delete_eq.
    simpl. rewrite length_app. simpl. lia.
  - by rewrite map_to_list_insert.
Qed.

Lemma total_targets_relations (L : LeafParsers) (rels : list (SpecRelation L)) :
  total_targets (foldl (add_target L) ∅ rels) = length rels.
Proof.
  induction rels as [|r rels IH] using rev_ind.
  - unfold total_targets. simpl. by rewrite map_to_list_empty.
  - rewrite foldl_snoc, total_targets_add_target, IH, length_app. simpl. lia.
Qed.

Section Indexes.
Context (L : LeafParsers) (t h : Element) (b : ReqIFBundle L).

Hypothesis Hb : (parse_reqif L t).1 = inr b.
Hypothesis Hh : find "THE-HEADER" (strip_namespace_from_xml t) = Some h.

Lemma bundle_indexes :
  spec_objects_lookup b
  = index_by (spec_object_identifier L) ∅ (bundle_spec_objects b)
  ∧ spec_relations_parent_lookup b
    = PyDict (Some []) (foldl (add_target L) ∅ (spec_relations b)).
Proof.
  apply parse_reqif_inr in Hb as (ns & cfg & _ & _ & Ha).
  apply assemble_inv in Ha
    as (dts & sts & sos & specs & st & _ & _ & _ & _ & _ & _ & _ & _ & _
        & Hso & Hidx & _); [done|by eexists].
Qed.

(** X7.  In a bundle returned for a document with a header, the
    identifier index maps every identifier to the last spec object of
    that identifier in the ordered spec objects, and to nothing when no
    spec object has it; every spec object's identifier is a key. *)
Theorem spec_objects_lookup_is_last_of_identifier (i : string) :
  spec_objects_lookup b !! i
  = last (filter (λ o, spec_object_identifier L o = i) (bundle_spec_objects b))
  ∧ (∀ o, o ∈ bundle_spec_objects b →
          is_Some (spec_objects_lookup b !! spec_object_identifier L o)).
Proof.
  destruct bundle_indexes as [-> _]. split; [apply index_by_lookup|].
  intros o Ho. rewrite index_by_lookup. apply last_is_Some.
  intros Hnil. apply (f_equal (λ l, o ∈ l)) in Hnil.
  assert (o ∈ filter (λ o', spec_object_identifier L o'
                            = spec_object_identifier L o)
                (bundle_spec_objects b)) as Hin
    by (by apply list_elem_of_filter).
  rewrite Hnil in Hin. by apply elem_of_nil in Hin.
Qed.

(** X8.  When the identifiers of the spec objects are pairwise distinct,
    the index gives every spec object back under its identifier and has
    as many entries as there are spec objects. *)
Theorem distinct_identifiers_round_trip :
  NoDup (spec_object_identifier L <$> bundle_spec_objects b) →
  (∀ o, o ∈ bundle_spec_objects b →
        spec_objects_lookup b !! spec_object_identifier L o = Some o)
  ∧ size (spec_objects_lookup b) = length (bundle_spec_objects b).
Proof.
  intros Hnd. destruct bundle_indexes as [-> _]. split.
  - intros o Ho. rewrite index_by_lookup.
    apply list_elem_of_split in Ho as (l1 & l2 & Hsplit).
    rewrite Hsplit in Hnd |- *.
    rewrite fmap_app, fmap_cons in Hnd.
    apply NoDup_app in Hnd as (_ & Hl1 & Hl2).
    apply NoDup_cons in Hl2 as [Hl2 _].
    rewrite filter_app, filter_cons, decide_True by done.
    rewrite (filter_none _ l2); [by rewrite last_snoc|].
    apply Forall_forall. intros o' Ho' Heq. apply Hl2.
    rewrite <- Heq. by apply list_elem_of_fmap_2.
  - rewrite <- size_dom, index_by_dom, size_list_to_set by done.
    by rewrite length_fmap.
Qed.

(** X9.  In a bundle returned for a document with a header, the keys of
    the relation index are exactly the sources of the relations, no key
    has an empty list, and the lists hold one target per relation in
    all. *)
Theorem relation_index_keys_and_size (s : string) :
  (items (spec_relations_parent_lookup b) !! s = None
   ↔ ∀ r, r ∈ spec_relations b → source L r ≠ s)
  ∧ (∀ ts, items (spec_relations_parent_lookup b) !! s = Some ts →
           ts ≠ [] ∧ ts = targets_of L s (spec_relations b))
  ∧ total_targets (items (spec_relations_parent_lookup b))
    = length (spec_relations b).
Proof.
  destruct bundle_indexes as [_ ->]. cbn [items].
  rewrite relation_index_lookup, total_targets_relations.
  split; [|split; [|done]].
  - case_decide as Hnil.
    + split; [|done]. intros _ r Hr Hs.
      assert (target L r ∈ targets_of L s (spec_relations b)) as Hin.
      { unfold targets_of. apply list_elem_of_fmap_2.
        by apply list_elem_of_filter. }
      rewrite Hnil in Hin. by apply elem_of_nil in Hin.
    + split; [done|]. intros Hs. by apply targets_of_nil in Hs.
  - intros ts. case_decide; [done|]. by intros [= <-].
Qed.

End Indexes.

(** ** The walk over [SPEC-TYPES], and what a bundle presupposes *)

Section Walk.
Context (L : LeafParsers).

Lemma spec_types_walk_invariant (P : SpecObjectType L → Prop) xs :
  ∀ st acc st' l,
    (∀ c o, c ∈ xs → tag_text (tag c) = "SPEC-OBJECT-TYPE" →
            SpecObjectTypeParser_parse L c = inr o → P o) →
    from_option P True st → Forall P acc →
    for_in xs (spec_object_types_body L) (st, acc) = inr (st', l) →
    length l = length acc + length xs
    ∧ Forall P l
    ∧ (st = None → ∀ c, head xs = Some c →
       tag_text (tag c) = "SPEC-OBJECT-TYPE").
Proof.
  induction xs as [|x xs IH]; intros st acc st' l HP Hst Hacc; simpl.
  - intros [= <- <-]. split; [lia|]. by split.
  - case_bool_decide as Htag.
    + destruct (SpecObjectTypeParser_parse L x) as [e|v] eqn:Hx; [done|].
      simpl. intros Hrun.
      apply IH in Hrun as (Hlen & HPl & _).
      * rewrite length_app in Hlen. simpl in Hlen.
        split; [lia|]. split; [done|]. by intros _ c [= <-].
      * intros c o Hc. apply HP. by right.
      * simpl. apply (HP x v); [by left|done|done].
      * apply Forall_app. split; [done|]. constructor; [|done].
        apply (HP x v); [by left|done|done].
    + simpl. destruct st as [v|]; simpl; [|done]. intros Hrun.
      apply IH in Hrun as (Hlen & HPl & _).
      * rewrite length_app in Hlen. simpl in Hlen.
        split; [lia|]. by split.
      * intros c o Hc. apply HP. by right.
      * done.
      * apply Forall_app. split; [done|]. by constructor.
Qed.

(** X10.  In a bundle returned for a document with a header,
    [spec_object_types] has one entry for every child of [SPEC-TYPES],
    whatever the child's tag; every entry is the object decoded from a
    [SPEC-OBJECT-TYPE] child; and the first child of [SPEC-TYPES], if
    there is one, is a [SPEC-OBJECT-TYPE]. *)
Theorem spec_object_types_one_entry_per_child (t h : Element)
    (b : ReqIFBundle L) :
  (parse_reqif L t).1 = inr b →
  find "THE-HEADER" (strip_namespace_from_xml t) = Some h →
  ∃ sts, section "SPEC-TYPES" (strip_namespace_from_xml t) = Some sts
         ∧ length (spec_object_types b) = length (children sts)
         ∧ Forall (λ o, ∃ c, c ∈ children sts
                             ∧ tag_text (tag c) = "SPEC-OBJECT-TYPE"
                             ∧ SpecObjectTypeParser_parse L c = inr o)
             (spec_object_types b)
         ∧ (∀ c, head (children sts) = Some c →
                 tag_text (tag c) = "SPEC-OBJECT-TYPE").
Proof.
  intros Hb Hh. apply parse_reqif_inr in Hb as (ns & cfg & _ & _ & Ha).
  apply assemble_inv in Ha
    as (dts & sts & sos & specs & st & _ & Hsts & _ & _ & _ & Hwalk & _);
    [|by eexists].
  exists sts. split; [done|].
  apply (spec_types_walk_invariant
           (λ o, ∃ c, c ∈ children sts
                      ∧ tag_text (tag c) = "SPEC-OBJECT-TYPE"
                      ∧ SpecObjectTypeParser_parse L c = inr o))
    in Hwalk as (Hlen & HP & Hhead); [|by eauto|done|done].
  split; [done|]. split; [done|]. by apply Hhead.
Qed.

(** X11.  [parse_reqif] returns a bundle only for a tree whose root
    declares both namespaces and has the local name [REQ-IF]; it then
    leaves the tree normalised; and for a document with a header the
    bundle's namespace and configuration are the two declared URIs, never
    [None]. *)
Theorem bundle_presupposes_namespaces (t : Element) (b : ReqIFBundle L) :
  (parse_reqif L t).1 = inr b →
  localname (tag t) = "REQ-IF"
  ∧ (parse_reqif L t).2 = strip_namespace_from_xml t
  ∧ ∃ ns cfg,
      nsmap t !! (None : option string) = Some ns
      ∧ nsmap t !! Some "configuration" = Some cfg
      ∧ (is_Some (find "THE-HEADER" (strip_namespace_from_xml t)) →
         bundle_namespace b = Some ns ∧ configuration b = Some cfg).
Proof.
  intros Hb. pose proof Hb as Ha.
  apply parse_reqif_inr in Ha as (ns & cfg & Hns & Hcfg & Ha).
  split; [|split].
  - rewrite <- tag_text_strip. by eapply assemble_inr_tag.
  - by rewrite (parse_reqif_namespaces L t ns cfg).
  - exists ns, cfg. split; [done|]. split; [done|]. intros Hh.
    apply assemble_inv in Ha
      as (dts & sts & sos & specs & st & _ & _ & _ & _ & _ & _ & _ & _ & _
          & _ & _ & Hn & Hc); done.
Qed.


End Walk.

(** ** Instances on the example documents *)


Lemma missing_section_exception_witness :
  (parse_reqif Sample.parsers Sample.without_spec_types).1
  = inl (NotImplementedError []).
Proof.
  destruct (missing_section_exception Sample.parsers Sample.without_spec_types
              Sample.reqif_xsd Sample.toolextensions)
    as (_ & _ & Hric).
  - vm_compute. reflexivity.
  - vm_compute. reflexivity.
  - reflexivity.
  - left. reflexivity.
  - edestruct Hric as [_ Hdts]; [vm_compute; reflexivity|].
    edestruct Hdts as (_ & _ & Hst); [vm_compute; reflexivity|run_decoded|].
    apply Hst; [by eexists|by eexists|vm_compute; reflexivity].
Defined.

Lemma data_type_exception_with_sections_missing_witness :
  (parse_reqif Sample.parsers Failing.data_type).1
  = inl (LeafError "IDENTIFIER is missing").
Proof.
  eapply (data_type_exception_with_sections_missing Sample.parsers
            Failing.data_type
            Sample.reqif_xsd Sample.toolextensions)
    with (pre := [_]) (post := []).
  - vm_compute. reflexivity.
  - vm_compute. reflexivity.
  - reflexivity.
  - left. reflexivity.
  - vm_compute. reflexivity.
  - vm_compute. reflexivity.
  - vm_compute. reflexivity.
  - run_decoded.
  - vm_compute. reflexivity.
Defined.

Lemma spec_objects_lookup_is_last_of_identifier_witness :
  spec_objects_lookup duplicate_identifier_bundle !! "SO-1"
  = Some (Sample.mkNamed "SO-1" (Some "second"))
  ∧ (∀ o, o ∈ bundle_spec_objects duplicate_identifier_bundle →
          is_Some (spec_objects_lookup duplicate_identifier_bundle
                     !! spec_object_identifier Sample.parsers o)).
Proof.
  eapply (spec_objects_lookup_is_last_of_identifier Sample.parsers
            Sample.duplicate_identifier _ duplicate_identifier_bundle).
  - vm_compute. reflexivity.
  - vm_compute. reflexivity.
Defined.

Lemma distinct_identifiers_round_trip_witness :
  (∀ o, o ∈ bundle_spec_objects document_bundle →
        spec_objects_lookup document_bundle
          !! spec_object_identifier Sample.parsers o = Some o)
  ∧ size (spec_objects_lookup document_bundle) = 2.
Proof.
  eapply (distinct_identifiers_round_trip Sample.parsers Sample.document _
            document_bundle).
  - vm_compute. reflexivity.
  - vm_compute. reflexivity.
  - apply (bool_decide_unpack _). vm_compute. reflexivity.
Defined.

Lemma relation_index_keys_and_size_witness :
  (items (spec_relations_parent_lookup three_relations_bundle) !! "SO-3" = None
   ↔ ∀ r, r ∈ spec_relations three_relations_bundle →
          source Sample.parsers r ≠ "SO-3")
  ∧ (∀ ts, items (spec_relations_parent_lookup three_relations_bundle)
             !! "SO-3" = Some ts →
           ts ≠ [] ∧ ts = targets_of Sample.parsers "SO-3"
                            (spec_relations three_relations_bundle))
  ∧ total_targets (items (spec_relations_parent_lookup three_relations_bundle))
    = 3.
Proof.
  eapply (relation_index_keys_and_size Sample.parsers Sample.three_relations _
            three_relations_bundle).
  - vm_compute. reflexivity.
  - vm_compute. reflexivity.
Defined.

Lemma spec_object_types_one_entry_per_child_witness :
  ∃ sts,
    section "SPEC-TYPES" (strip_namespace_from_xml Sample.other_spec_type_last)
    = Some sts
    ∧ length (spec_object_types other_spec_type_last_bundle)
      = length (children sts)
    ∧ Forall (λ o, ∃ c, c ∈ children sts
                        ∧ tag_text (tag c) = "SPEC-OBJECT-TYPE"
                        ∧ SpecObjectTypeParser_parse Sample.parsers c = inr o)
        (spec_object_types other_spec_type_last_bundle)
    ∧ (∀ c, head (children sts) = Some c →
            tag_text (tag c) = "SPEC-OBJECT-TYPE").
Proof.
  eapply (spec_object_types_one_entry_per_child Sample.parsers
            Sample.other_spec_type_last).
  - vm_compute. reflexivity.
  - vm_compute. reflexivity.
Defined.

Lemma bundle_presupposes_namespaces_witness :
  localname (tag Sample.document) = "REQ-IF"
  ∧ (parse_reqif Sample.parsers Sample.document).2
    = strip_namespace_from_xml Sample.document
  ∧ ∃ ns cfg,
      nsmap Sample.document !! (None : option string) = Some ns
      ∧ nsmap Sample.document !! Some "configuration" = Some cfg
      ∧ (is_Some (find "THE-HEADER" (strip_namespace_from_xml Sample.document)) →
         bundle_namespace document_bundle = Some ns
         ∧ configuration document_bundle = Some cfg).
Proof.
  apply (bundle_presupposes_namespaces Sample.parsers Sample.document
           document_bundle).
  vm_compute. reflexivity.
Defined.


(** ** The ordered collections *)

(** X13.  In a bundle returned for a document with a header:
    [data_types], the ordered spec objects, [specifications] and
    [spec_relations] are the objects decoded from the children of
    [DATATYPES], [SPEC-OBJECTS], [SPECIFICATIONS] and [SPEC-RELATIONS],
    one per child and in document order; so is [spec_object_types] when
    every child of [SPEC-TYPES] is a [SPEC-OBJECT-TYPE]; and the target of
    the [i]-th relation stands, in the index list of its source, after as
    many targets as there are earlier relations of that source. *)
Theorem collections_in_document_order (L : LeafParsers) (t h : Element)
    (b : ReqIFBundle L) :
  (parse_reqif L t).1 = inr b →
  find "THE-HEADER" (strip_namespace_from_xml t) = Some h →
  ∃ dts sts sos specs,
    section "DATATYPES" (strip_namespace_from_xml t) = Some dts
    ∧ section "SPEC-TYPES" (strip_namespace_from_xml t) = Some sts
    ∧ section "SPEC-OBJECTS" (strip_namespace_from_xml t) = Some sos
    ∧ section "SPECIFICATIONS" (strip_namespace_from_xml t) = Some specs
    ∧ decoded (DataTypeParser_parse L) (children dts) (data_types b)
    ∧ (Forall (λ c, tag_text (tag c) = "SPEC-OBJECT-TYPE") (children sts) →
       decoded (SpecObjectTypeParser_parse L) (children sts)
         (spec_object_types b))
    ∧ decoded (SpecObjectParser_parse L) (children sos)
        (bundle_spec_objects b)
    ∧ decoded (ReqIFSpecificationParser_parse L) (children specs)
        (specifications b)
    ∧ decoded (SpecRelationParser_parse L)
        (section_children "SPEC-RELATIONS" (strip_namespace_from_xml t))
        (spec_relations b)
    ∧ ∀ i r, spec_relations b !! i = Some r →
        items (spec_relations_parent_lookup b) !! source L r
        = Some (targets_of L (source L r) (spec_relations b))
        ∧ targets_of L (source L r) (spec_relations b)
            !! length (targets_of L (source L r) (take i (spec_relations b)))
          = Some (target L r).
Proof.
  intros Hb Hh. apply parse_reqif_inr in Hb as (ns & cfg & _ & _ & Hb).
  apply assemble_inv in Hb
    as (dts & sts & sos & specs & st & Hdts & Hsts & Hsos & Hspecs & Hdt
        & Hsot & Hsp & Hrl & Hol & _ & Hidx & _); [|by eexists].
  exists dts, sts, sos, specs.
  do 5 (split; [done|]). split; [|do 3 (split; [done|])].
  - intros Hall. by apply (for_in_spec_object_types_inv L _ _ Hall Hsot).
  - intros i r Hi.
    pose proof (targets_of_position L _ _ _ Hi) as Hpos.
    split; [|done].
    rewrite Hidx. cbn [items]. rewrite relation_index_lookup.
    case_decide as Hnil; [|done]. by rewrite Hnil in Hpos.
Qed.

Lemma collections_in_document_order_witness :
  items (spec_relations_parent_lookup three_relations_bundle) !! "SO-1"
  = Some ["SO-2"; "SO-3"]
  ∧ ["SO-2"; "SO-3"] !! 1 = Some "SO-3".
Proof.
  destruct (collections_in_document_order Sample.parsers
              Sample.three_relations
              (strip_namespace_from_xml Sample.header) three_relations_bundle)
    as (dts & sts & sos & specs & _ & _ & _ & _ & _ & _ & _ & _ & _ & Hidx).
  - vm_compute. reflexivity.
  - vm_compute. reflexivity.
  - exact (Hidx 2 (Sample.mkRelation "SR-3" "SO-1" "SO-3") eq_refl).
Defined.
